(** * OpenStreetMap MCP server: session registry, message router and geocoding tool

    A shallow embedding of [src/server.ts] (the Express application with its
    [/sse] and [/messages] routes and the [transports] registry), of the
    module it imports as [./tools/openstreetmap] ([queryOpenStreetMap]), and
    of the test client ([runMinimalClient]).

    JavaScript strings are sequences of UTF-16 code units, JavaScript numbers
    are IEEE-754 doubles, and the [transports] registry is an ordinary object:
    its own properties are a finite map, and reading a property that is not
    its own falls through to [Object.prototype]. *)

From Stdlib Require Import NArith String Ascii List Floats Lia.
From stdpp Require Import base option list gmap.

Local Open Scope N_scope.

(** ** JavaScript values *)

Module JS.

(** A string is its sequence of UTF-16 code units. *)
Abbreviation jsstring := (list N).

(** An ASCII literal of the source. *)
Definition str (s : string) : jsstring :=
  map N_of_ascii (list_ascii_of_string s).

(** ECMAScript [WhiteSpace]: TAB, VT, FF, ZWNBSP and the category Zs. *)
Definition isWhiteSpace (c : N) : bool :=
  (c =? 0x09) || (c =? 0x0B) || (c =? 0x0C) || (c =? 0xFEFF)
  || (c =? 0x20) || (c =? 0xA0) || (c =? 0x1680)
  || ((0x2000 <=? c) && (c <=? 0x200A))
  || (c =? 0x202F) || (c =? 0x205F) || (c =? 0x3000).

(** ECMAScript [LineTerminator]: LF, CR, LS, PS. *)
Definition isLineTerminator (c : N) : bool :=
  (c =? 0x0A) || (c =? 0x0D) || (c =? 0x2028) || (c =? 0x2029).

(** The code units [String.prototype.trim] strips. *)
Definition isStripped (c : N) : bool := isWhiteSpace c || isLineTerminator c.

Fixpoint trimStart (s : jsstring) : jsstring :=
  match s with
  | [] => []
  | c :: r => if isStripped c then trimStart r else s
  end.

Definition trimEnd (s : jsstring) : jsstring := rev (trimStart (rev s)).

(** [s.trim()] *)
Definition trim (s : jsstring) : jsstring := trimEnd (trimStart s).

(** A string that is empty or made of white space and line terminators only. *)
Definition blank (s : jsstring) : bool := forallb isStripped s.

(** Values: what [JSON.parse] yields, the object literals the tool returns,
    and [undefined]. An object is the list of its own properties in insertion
    order, each key once. *)
#[warnings="-register-all"] Inductive Value : Type :=
| VUndefined
| VNull
| VBool (b : bool)
| VNum (f : float)
| VStr (s : jsstring)
| VArr (elems : list Value)
| VObj (props : list (jsstring * Value)).

Definition jsstring_eqb (a b : jsstring) : bool := bool_decide (a = b).

(** The own property [k] of a property list. *)
Fixpoint ownProperty (props : list (jsstring * Value)) (k : jsstring) : option Value :=
  match props with
  | [] => None
  | (k', v) :: rest => if jsstring_eqb k' k then Some v else ownProperty rest k
  end.

(** The keys of an object literal, in order. *)
Definition keys (v : Value) : list jsstring :=
  match v with
  | VObj props => map fst props
  | _ => []
  end.

(** [ToBoolean]. *)
Definition truthy (v : Value) : bool :=
  match v with
  | VUndefined | VNull => false
  | VBool b => b
  | VNum f => negb (PrimFloat.eqb f 0 || PrimFloat.is_nan f)
  | VStr s => negb (jsstring_eqb s [])
  | VArr _ | VObj _ => true
  end.

(** What a [throw] carries: an [Error] instance with its [message], or any
    other value. *)
Inductive Thrown : Type :=
| ErrorObject (name message : jsstring)
| NonError (v : Value).

(** Decimal digits of a non-negative integer, as the template literal
    [`${n}`] prints it. *)
Fixpoint digitsFuel (fuel : nat) (n : N) (acc : jsstring) : jsstring :=
  match fuel with
  | O => acc
  | S fuel' =>
      let acc' := (0x30 + n mod 10) :: acc in
      if n / 10 =? 0 then acc' else digitsFuel fuel' (n / 10) acc'
  end.

Definition decimal (n : N) : jsstring := digitsFuel (S (N.to_nat (N.log2 n))) n [].

(** Hexadecimal digit, upper case (percent-encoding) or lower case (UUIDs). *)
Definition hexDigit (upper : bool) (d : N) : N :=
  if d <? 10 then 0x30 + d else (if upper then 0x41 else 0x61) + (d - 10).

(** *** [encodeURIComponent] *)

(** The characters [encodeURIComponent] leaves as they are:
    letters, digits and [- _ . ! ~ * ' ( )]. *)
Definition isUnreserved (c : N) : bool :=
  ((0x41 <=? c) && (c <=? 0x5A)) || ((0x61 <=? c) && (c <=? 0x7A))
  || ((0x30 <=? c) && (c <=? 0x39))
  || existsb (N.eqb c) (str "-_.!~*'()").

Definition percent (byte : N) : jsstring :=
  [0x25; hexDigit true (byte / 16); hexDigit true (byte mod 16)].

(** UTF-8 bytes of a code point, each percent-encoded. *)
Definition percentUtf8 (cp : N) : jsstring :=
  if cp <? 0x80 then percent cp
  else if cp <? 0x800 then
    percent (0xC0 + cp / 64) ++ percent (0x80 + cp mod 64)
  else if cp <? 0x10000 then
    percent (0xE0 + cp / 4096) ++ percent (0x80 + (cp / 64) mod 64)
    ++ percent (0x80 + cp mod 64)
  else
    percent (0xF0 + cp / 262144) ++ percent (0x80 + (cp / 4096) mod 64)
    ++ percent (0x80 + (cp / 64) mod 64) ++ percent (0x80 + cp mod 64).

Definition isHighSurrogate (c : N) : bool := (0xD800 <=? c) && (c <=? 0xDBFF).
Definition isLowSurrogate (c : N) : bool := (0xDC00 <=? c) && (c <=? 0xDFFF).

(** [None] is the [URIError] thrown for a lone surrogate. *)
Fixpoint encodeURIComponent (s : jsstring) : option jsstring :=
  match s with
  | [] => Some []
  | c :: r =>
      if isUnreserved c then (c ::.) <$> encodeURIComponent r
      else if isLowSurrogate c then None
      else if isHighSurrogate c then
        match r with
        | c2 :: r' =>
            if isLowSurrogate c2 then
              (percentUtf8 ((c - 0xD800) * 0x400 + (c2 - 0xDC00) + 0x10000) ++.)
                <$> encodeURIComponent r'
            else None
        | [] => None
        end
      else (percentUtf8 c ++.) <$> encodeURIComponent r
  end.

(** The double-quote character. *)
Definition dquote : jsstring := [0x22].

Definition URIError : Thrown := ErrorObject (str "URIError") (str "URI malformed").

End JS.

(** ** The geocoding tool ([./tools/openstreetmap]) *)

Module OpenStreetMap.
Import JS.

(** How a promise settles. *)
Inductive Settled (A : Type) : Type :=
| Fulfilled (a : A)
| Rejected (e : Thrown).
Arguments Fulfilled {A} a.
Arguments Rejected {A} e.

(** One outbound call: [fetch(url, {headers})]. *)
Record FetchCall : Type := {
  url : jsstring;
  headers : list (jsstring * jsstring)
}.

(** The collaborator's answer as node-fetch presents it. *)
Record Response : Type := {
  status : N;
  statusText : jsstring;
  text : Settled jsstring;   (* response.text() *)
  json : Settled Value       (* response.json() *)
}.

(** node-fetch: [ok] is [status >= 200 && status < 300]. *)
Definition ok (r : Response) : bool := (200 <=? status r) && (status r <? 300).

(** The network: what [fetch] settles to for each call. *)
Definition Network : Type := FetchCall -> Settled Response.

(** The built-ins the code calls and this development leaves abstract. *)
Class Builtins : Type := {
  parseFloat : Value -> float;
  JSON_stringify : Value -> jsstring
}.

(** An asynchronous computation: it settles, and it extends the log of
    outbound calls made so far. *)
Definition Async (A : Type) : Type :=
  list FetchCall -> Settled A * list FetchCall.

#[global] Instance Async_ret : MRet Async :=
  fun A a log => (Fulfilled a, log).

#[global] Instance Async_bind : MBind Async :=
  fun A B k m log =>
    match m log with
    | (Fulfilled a, log') => k a log'
    | (Rejected e, log') => (Rejected e, log')
    end.

Definition throw {A : Type} (e : Thrown) : Async A :=
  fun log => (Rejected e, log).

(** [await p] for an already settled promise. *)
Definition await {A : Type} (p : Settled A) : Async A :=
  fun log => (p, log).

(** [try { body } catch (error) { handler }] *)
Definition tryCatch {A : Type} (body : Async A) (handler : Thrown -> Async A) : Async A :=
  fun log =>
    match body log with
    | (Fulfilled a, log') => (Fulfilled a, log')
    | (Rejected e, log') => handler e log'
    end.

(** [await fetch(url, {headers})]: the call is logged, the network answers. *)
Definition fetch (net : Network) (u : jsstring) (h : list (jsstring * jsstring)) : Async Response :=
  fun log =>
    let call := {| url := u; headers := h |} in
    (net call, log ++ [call]).

Definition TypeError (message : jsstring) : Thrown :=
  ErrorObject (str "TypeError") message.

(** [v.k], for the property names this module reads ([display_name], [lat],
    [lon], [address], [osm_type], [osm_id], [class], [type]), none of which a
    built-in prototype defines: an object yields its own property or
    [undefined], [undefined] and [null] throw, every other value yields
    [undefined]. *)
Definition getMember (v : Value) (k : jsstring) : Async Value :=
  match v with
  | VUndefined =>
      throw (TypeError (str "Cannot read properties of undefined (reading '" ++ k ++ str "')"))
  | VNull =>
      throw (TypeError (str "Cannot read properties of null (reading '" ++ k ++ str "')"))
  | VObj props => mret (default VUndefined (ownProperty props k))
  | _ => mret VUndefined
  end.

(** [data.length === 0] for a truthy [data]. *)
Definition lengthIsZero (data : Value) : bool :=
  match data with
  | VArr elems => bool_decide (elems = [])
  | VStr s => jsstring_eqb s []
  | VObj props =>
      match ownProperty props (str "length") with
      | Some (VNum f) => PrimFloat.eqb f 0
      | _ => false
      end
  | _ => false
  end.

(** [data[0]] for a truthy [data]. *)
Definition index0 (data : Value) : Value :=
  match data with
  | VArr elems => hd VUndefined elems
  | VStr (c :: _) => VStr [c]
  | VObj props => default VUndefined (ownProperty props (str "0"))
  | _ => VUndefined
  end.

Definition userAgent : list (jsstring * jsstring) :=
  [(str "User-Agent", str "MCP-Server-OSM-Tool/1.0 (contact@example.com)")].

Definition apiUrl (encodedQuery : jsstring) : jsstring :=
  str "https://nominatim.openstreetmap.org/search?q=" ++ encodedQuery
  ++ str "&format=json&limit=1".

Section Tool.
Context `{Builtins}.
Variable net : Network.

(** [queryOpenStreetMap({ query })]. Console output is left out. *)
Definition queryOpenStreetMap (query : jsstring) : Async Value :=
  if jsstring_eqb query [] || Nat.eqb (length (trim query)) 0 then
    mret (VObj [(str "error", VStr (str "Query parameter cannot be empty."))])
  else
    encodedQuery ← match encodeURIComponent query with
                   | Some e => mret e
                   | None => throw URIError
                   end;
    tryCatch
      (response ← fetch net (apiUrl encodedQuery) userAgent;
       (if negb (ok response) then
          errorText ← await (text response);   (* logged only *)
          throw (ErrorObject (str "Error")
                   (str "Nominatim API request failed with status "
                    ++ decimal (status response) ++ str ": " ++ statusText response))
        else mret ());;
       data ← await (json response);
       if negb (truthy data) || lengthIsZero data then
         mret (VObj [(str "query", VStr query);
                     (str "found", VBool false);
                     (str "message",
                      VStr (str "Could not find location information for " ++ dquote
                            ++ query ++ dquote ++ str "."))])
       else
         let result := index0 data in
         logged ← getMember result (str "display_name");   (* the console.log *)
         display_name ← getMember result (str "display_name");
         lat ← getMember result (str "lat");
         lon ← getMember result (str "lon");
         address ← getMember result (str "address");
         osm_type ← getMember result (str "osm_type");
         osm_id ← getMember result (str "osm_id");
         class ← getMember result (str "class");
         type ← getMember result (str "type");
         mret (VObj [(str "query", VStr query);
                     (str "found", VBool true);
                     (str "display_name", display_name);
                     (str "latitude", VNum (parseFloat lat));
                     (str "longitude", VNum (parseFloat lon));
                     (str "address_details", address);
                     (str "osm_type", osm_type);
                     (str "osm_id", osm_id);
                     (str "class", class);
                     (str "type", type)]))
      (fun error =>
         let errorMessage :=
           match error with
           | ErrorObject _ message => message
           | NonError _ => str "An unknown error occurred"
           end in
         mret (VObj [(str "query", VStr query);
                     (str "found", VBool false);
                     (str "error",
                      VStr (str "Failed to query OpenStreetMap: " ++ errorMessage))])).

(** The callback registered for the tool in [src/server.ts]: one text block
    holding the serialized envelope. *)
Definition toolCallback (query : jsstring) : Async Value :=
  result ← queryOpenStreetMap query;
  mret (VObj [(str "content",
               VArr [VObj [(str "type", VStr (str "text"));
                           (str "text", VStr (JSON_stringify result))]])]).

End Tool.

(** The call [queryOpenStreetMap] makes for an already encoded query. *)
Definition request (encodedQuery : jsstring) : FetchCall :=
  {| url := apiUrl encodedQuery; headers := userAgent |}.

(** [query] passes the guard and the encoder, and the network settles the
    resulting call as [outcome]. *)
Definition settles (net : Network) (query : jsstring) (outcome : Settled Response) : Prop :=
  blank query = false ∧
  ∃ encodedQuery, encodeURIComponent query = Some encodedQuery
                  ∧ net (request encodedQuery) = outcome.

(** A collaborator failure: [fetch] rejects, the status is not 2xx, or the
    body does not parse. *)
Definition collaboratorFails (outcome : Settled Response) : Prop :=
  match outcome with
  | Rejected _ => True
  | Fulfilled response => ok response = false ∨ ∃ e, json response = Rejected e
  end.

(** The upstream answers the call for [query] with a 2xx status and a body
    that parses to [data]. *)
Definition respondsWith (net : Network) (query : jsstring) (data : Value) : Prop :=
  ∃ response, settles net query (Fulfilled response)
              ∧ ok response = true ∧ json response = Fulfilled data.

End OpenStreetMap.

(** ** The Express application ([src/server.ts]) *)

Module Server.
Import JS OpenStreetMap.

(** *** Collaborators: zod, the MCP SDK, [crypto.randomUUID] *)

(** The zod schemas the source builds: [z.string().describe(text)]. *)
Inductive ZodType : Type :=
| ZString (description : option jsstring).

(** [schema.safeParse(v).success] *)
Definition zodAccepts (t : ZodType) (v : Value) : bool :=
  match t, v with
  | ZString _, VStr _ => true
  | ZString _, _ => false
  end.

(** [z.object(shape).safeParse(args).success]: the SDK wraps the raw shape
    given to [server.tool] in [z.object]. A missing key reads as [undefined]. *)
Definition shapeAccepts (shape : list (jsstring * ZodType)) (args : Value) : bool :=
  match args with
  | VObj props =>
      forallb (fun kt => zodAccepts (snd kt) (default VUndefined (ownProperty props (fst kt))))
              shape
  | _ => false
  end.

(** A registered tool: its parameter shape and its callback, which the SDK
    applies to the validated [query] once the network is known. *)
Record RegisteredTool : Type := {
  inputSchema : list (jsstring * ZodType);
  callback : Network -> jsstring -> Async Value
}.

Record McpServer : Type := {
  serverName : jsstring;
  serverVersion : jsstring;
  registeredTools : list (jsstring * RegisteredTool)
}.

(** [new McpServer({ name, version })] *)
Definition newMcpServer (name version : jsstring) : McpServer :=
  {| serverName := name; serverVersion := version; registeredTools := [] |}.

(** [server.tool(name, shape, cb)] on a server that has no tool [name] yet. *)
Definition tool (server : McpServer) (name : jsstring)
    (shape : list (jsstring * ZodType)) (cb : Network -> jsstring -> Async Value) : McpServer :=
  {| serverName := serverName server;
     serverVersion := serverVersion server;
     registeredTools :=
       registeredTools server ++ [(name, {| inputSchema := shape; callback := cb |})] |}.

(** The low [k] hexadecimal digits of [n], most significant first. *)
Fixpoint hexDigits (k : nat) (n : N) (acc : jsstring) : jsstring :=
  match k with
  | O => acc
  | S k' => hexDigits k' (n / 16) (hexDigit false (n mod 16) :: acc)
  end.

(** The text of a UUID with the 128 bits [u]: 8-4-4-4-12 hexadecimal digits. *)
Definition uuidString (u : N) : jsstring :=
  let h := hexDigits 32 u [] in
  take 8 h ++ str "-" ++ take 4 (drop 8 h) ++ str "-" ++ take 4 (drop 12 h)
  ++ str "-" ++ take 4 (drop 16 h) ++ str "-" ++ drop 20 h.

(** [new SSEServerTransport(endpoint, res)]: the constructor draws
    [randomUUID()] for the session id. *)
Record SSEServerTransport : Type := {
  endpoint : jsstring;
  uuid : N
}.

Definition sessionId (t : SSEServerTransport) : jsstring := uuidString (uuid t).

(** *** The [transports] registry *)

(** The property names of [Object.prototype], which every object literal
    inherits. *)
Definition objectPrototypeKeys : list jsstring :=
  map str ["constructor"; "__defineGetter__"; "__defineSetter__"; "hasOwnProperty";
           "__lookupGetter__"; "__lookupSetter__"; "isPrototypeOf";
           "propertyIsEnumerable"; "toString"; "valueOf"; "__proto__";
           "toLocaleString"]%string.

(** What [transports[key]] evaluates to. *)
Inductive Lookup : Type :=
| Own (transport : SSEServerTransport)   (* an own property: a registered transport *)
| Inherited (key : jsstring)             (* a member of Object.prototype: truthy, no handleMessage *)
| Absent.                                (* undefined *)

(** [transports[key]] *)
Definition registryGet (own : gmap jsstring SSEServerTransport) (key : jsstring) : Lookup :=
  match own !! key with
  | Some transport => Own transport
  | None => if bool_decide (key ∈ objectPrototypeKeys) then Inherited key else Absent
  end.

(** [transports[transport.sessionId] = transport] *)
Definition registrySet (transport : SSEServerTransport)
    (own : gmap jsstring SSEServerTransport) : gmap jsstring SSEServerTransport :=
  <[sessionId transport := transport]> own.

(** [delete transports[key]] *)
Definition registryDelete (key : jsstring)
    (own : gmap jsstring SSEServerTransport) : gmap jsstring SSEServerTransport :=
  delete key own.

(** *** Connections and server state *)

Inductive Handshake : Type := Pending | Connected | Failed.

(** One [/sse] request: its response headers, its command processor, its
    transport, whether the response has ended, and whether the handler has
    attached its [close] listener to the request. *)
Record Connection : Type := {
  responseHeaders : list (jsstring * jsstring);
  mcpServer : McpServer;
  transport : SSEServerTransport;
  writableEnded : bool;
  closeListener : bool;
  handshake : Handshake
}.

Record ServerState : Type := {
  transports : gmap jsstring SSEServerTransport;
  connections : list Connection
}.

Definition initial : ServerState := {| transports := ∅; connections := [] |}.

Record HttpResponse : Type := {
  statusCode : N;
  responseBody : jsstring
}.

(** How [await server.connect(transport)] settles; on failure, whether the
    SDK has already ended the response. *)
Inductive ConnectResult : Type :=
| ConnectOk
| ConnectThrows (error : Thrown) (resEnded : bool).

(** *** Route handlers *)

Section Routes.
Context `{Builtins}.

(** [app.get('/health')] *)
Definition getHealth (s : ServerState) : HttpResponse * ServerState :=
  ({| statusCode := 200; responseBody := str "OK" |}, s).

(** The processor built for a connection: fresh, with the one tool. *)
Definition connectionServer : McpServer :=
  tool (newMcpServer (str "openstreetmap-mcp-server") (str "1.0.0"))
       (str "query_openstreetmap")
       [(str "query",
         ZString (Some (str "The place name, address, or landmark to search for.")))]
       (fun net query => toolCallback net query).

(** [app.get('/sse')] up to [await server.connect(transport)]: headers,
    processor, transport, registry entry. [u] is what [randomUUID()] draws. *)
Definition sseOpen (u : N) (s : ServerState) : ServerState :=
  let server := connectionServer in
  let transport := {| endpoint := str "/messages"; uuid := u |} in
  {| transports := registrySet transport (transports s);
     connections :=
       connections s ++
       [{| responseHeaders :=
             [(str "Content-Type", str "text/event-stream");
              (str "Cache-Control", str "no-cache");
              (str "Connection", str "keep-alive")];
           mcpServer := server;
           transport := transport;
           writableEnded := false;
           closeListener := false;
           handshake := Pending |}] |}.

(** The rest of the [/sse] handler, run when the handshake of connection [c]
    settles: the [catch] block ends the response and returns; otherwise the
    [close] listener is attached. *)
Definition sseSettle (c : nat) (r : ConnectResult) (s : ServerState) : ServerState :=
  match connections s !! c with
  | Some conn =>
      match handshake conn, r with
      | Pending, ConnectOk =>
          {| transports := transports s;
             connections :=
               <[c := {| responseHeaders := responseHeaders conn;
                         mcpServer := mcpServer conn;
                         transport := transport conn;
                         writableEnded := writableEnded conn;
                         closeListener := true;
                         handshake := Connected |}]> (connections s) |}
      | Pending, ConnectThrows _ resEnded =>
          let ended := writableEnded conn || resEnded in
          {| transports := transports s;
             connections :=
               <[c := {| responseHeaders := responseHeaders conn;
                         mcpServer := mcpServer conn;
                         transport := transport conn;
                         writableEnded := if negb ended then true else ended;
                         closeListener := closeListener conn;
                         handshake := Failed |}]> (connections s) |}
      | _, _ => s
      end
  | None => s
  end.

(** The request of connection [c] emits [close]: the listener, when attached,
    deletes the registry entry. *)
Definition reqClose (c : nat) (s : ServerState) : ServerState :=
  match connections s !! c with
  | Some conn =>
      if closeListener conn then
        {| transports := registryDelete (sessionId (transport conn)) (transports s);
           connections := connections s |}
      else s
  | None => s
  end.

(** The property key [req.query.sessionId] selects. An absent parameter is
    [undefined], whose key is the string "undefined"; a repeated or bracketed
    parameter reaches the lookup as the string JavaScript converts it to. *)
Definition propertyKey (sessionIdParam : option jsstring) : jsstring :=
  default (str "undefined") sessionIdParam.

(** [app.post('/messages')], once the body parsers have run.
    [handleMessage] is the SDK's method: how it settles for a transport and a
    body. *)
Definition postMessages (sessionIdParam : option jsstring) (body : Value)
    (handleMessage : SSEServerTransport -> Value -> Settled ())
    (s : ServerState) : HttpResponse * ServerState :=
  match registryGet (transports s) (propertyKey sessionIdParam) with
  | Own transport =>
      match handleMessage transport body with
      | Fulfilled _ => ({| statusCode := 200; responseBody := str "OK" |}, s)
      | Rejected _ =>
          ({| statusCode := 500; responseBody := str "Error processing message" |}, s)
      end
  | Inherited _ =>
      (* truthy, but [transport.handleMessage] is undefined: calling it throws
         a TypeError inside the [try] *)
      ({| statusCode := 500; responseBody := str "Error processing message" |}, s)
  | Absent =>
      ({| statusCode := 404; responseBody := str "Session not found or inactive" |}, s)
  end.

(** *** The event loop *)

Inductive Event : Type :=
| GetHealth
| GetSse (u : N)
| ConnectSettles (c : nat) (r : ConnectResult)
| ReqClose (c : nat)
| PostMessages (sessionIdParam : option jsstring) (body : Value)
               (handleMessage : SSEServerTransport -> Value -> Settled ()).

(** One turn: the response sent in it, if any, and the next state. *)
Definition step (e : Event) (s : ServerState) : option HttpResponse * ServerState :=
  match e with
  | GetHealth => let '(r, s') := getHealth s in (Some r, s')
  | GetSse u => (None, sseOpen u s)
  | ConnectSettles c r => (None, sseSettle c r s)
  | ReqClose c => (None, reqClose c s)
  | PostMessages sid body h => let '(r, s') := postMessages sid body h s in (Some r, s')
  end.

(** The responses of a sequence of turns, one entry per turn. *)
Fixpoint run (events : list Event) (s : ServerState) : list (option HttpResponse) :=
  match events with
  | [] => []
  | e :: rest => let '(r, s') := step e s in r :: run rest s'
  end.

(** The state after a sequence of turns. *)
Definition exec (events : list Event) (s : ServerState) : ServerState :=
  fold_left (fun s e => snd (step e s)) events s.

End Routes.

(** No turn of [events] opens a connection whose transport draws the session
    id [sid]. *)
Definition neverMints (sid : jsstring) (events : list Event) : Prop :=
  ∀ u, GetSse u ∈ events → uuidString u ≠ sid.

(** *** Requests in front of the handlers *)

(** What the body parsers make of a request before its handler runs:
    [express.json()], mounted on the application, and
    [express.text({ type: '*/*' })], mounted on the [/messages] route. Either
    they hand a body on, or one of them fails and Express answers in the
    handler's place with the parser's status (400 for a body that does not
    parse, 413 for one too large, 415 for an unsupported encoding). *)
Inductive BodyParsing : Type :=
| Accepted (body : Value)
| Refused (response : HttpResponse).

(** POST /messages as Express serves it: the parsers, then the handler. *)
Definition postRequest (sessionIdParam : option jsstring) (parsing : BodyParsing)
    (handleMessage : SSEServerTransport -> Value -> Settled ())
    (s : ServerState) : HttpResponse * ServerState :=
  match parsing with
  | Accepted body => postMessages sessionIdParam body handleMessage s
  | Refused response => (response, s)
  end.


Section Serving.
Context `{Builtins}.



End Serving.


End Server.

(** ** The test client ([src/client.ts]) *)

Module Client.
Import JS OpenStreetMap.

(** What the script asks of the SDK client, in order. *)
Inductive SdkCall : Type :=
| Connect (sseUrl : jsstring)
| ListTools
| CallTool (name : jsstring) (arguments : Value)
| Close.

(** How the SDK client answers each request. *)
Record Sdk : Type := {
  connect : jsstring -> Settled ();
  listTools : Settled Value;
  callTool : jsstring -> Value -> Settled Value;
  close : Settled ()
}.

(** A computation of the script: it settles and extends the log of SDK
    requests. Console output is left out. *)
Definition Script (A : Type) : Type :=
  list SdkCall -> Settled A * list SdkCall.

#[global] Instance Script_ret : MRet Script :=
  fun A a log => (Fulfilled a, log).

#[global] Instance Script_bind : MBind Script :=
  fun A B k m log =>
    match m log with
    | (Fulfilled a, log') => k a log'
    | (Rejected e, log') => (Rejected e, log')
    end.

Definition raise {A : Type} (e : Thrown) : Script A :=
  fun log => (Rejected e, log).

(** [await client.method(...)]: the request is logged, the SDK answers. *)
Definition ask {A : Type} (call : SdkCall) (answer : Settled A) : Script A :=
  fun log => (answer, log ++ [call]).

(** [try { body } catch (error) { handler }] *)
Definition attempt {A : Type} (body : Script A) (handler : Thrown -> Script A) : Script A :=
  fun log =>
    match body log with
    | (Fulfilled a, log') => (Fulfilled a, log')
    | (Rejected e, log') => handler e log'
    end.

(** [try { body } catch (error) { handler } finally { finalizer }]: the
    finalizer always runs; when it completes normally the outcome is that of
    the body or of the handler. *)
Definition attemptFinally {A : Type} (body : Script A) (handler : Thrown -> Script A)
    (finalizer : Script ()) : Script A :=
  fun log =>
    let '(outcome, log') := attempt body handler log in
    match finalizer log' with
    | (Fulfilled _, log'') => (outcome, log'')
    | (Rejected e, log'') => (Rejected e, log'')
    end.

(** [process.env.SERVER_URL || 'http://localhost:3000'] *)
Definition serverBaseUrl (SERVER_URL : option jsstring) : jsstring :=
  match SERVER_URL with
  | Some (c :: r) => c :: r
  | _ => str "http://localhost:3000"
  end.

(** [`${serverBaseUrl}/sse`] *)
Definition sseUrl (SERVER_URL : option jsstring) : jsstring :=
  serverBaseUrl SERVER_URL ++ str "/sse".

Definition toolName : jsstring := str "query_openstreetmap".

Definition parameters : Value := VObj [(str "query", VStr (str "Eiffel Tower, Paris"))].

(** Reading [v.key]: [undefined] and [null] throw, any other receiver lets
    the read go through. *)
Definition readable (v : Value) (key : jsstring) : Script () :=
  match v with
  | VUndefined =>
      raise (ErrorObject (str "TypeError")
               (str "Cannot read properties of undefined (reading '" ++ key ++ str "')"))
  | VNull =>
      raise (ErrorObject (str "TypeError")
               (str "Cannot read properties of null (reading '" ++ key ++ str "')"))
  | _ => mret ()
  end.

Section Script.
(** Whether [new URL(text)] accepts [text]. *)
Variable URL_parses : jsstring -> bool.
Variable SERVER_URL : option jsstring.
Variable client : Sdk.

(** [runMinimalClient()] *)
Definition runMinimalClient : Script () :=
  if negb (URL_parses (sseUrl SERVER_URL)) then
    raise (ErrorObject (str "TypeError") (str "Invalid URL"))
  else
    attemptFinally
      (ask (Connect (sseUrl SERVER_URL)) (connect client (sseUrl SERVER_URL));;
       toolsList ← ask ListTools (listTools client);
       readable toolsList (str "tools");;              (* toolsList.tools *)
       result ← ask (CallTool toolName parameters) (callTool client toolName parameters);
       readable result (str "content");;               (* result.content *)
       (* the content block is printed; JSON.parse sits in its own try *)
       mret ())
      (fun error => mret ())
      (attempt (ask Close (close client)) (fun closeError => mret ())).

End Script.

End Client.

(** ** Sample worlds, used to run the definitions on concrete inputs *)

Module Samples.
Import JS OpenStreetMap Server.

(** Stand-ins for the abstract built-ins. *)
#[export] Instance sampleBuiltins : Builtins :=
  {| parseFloat := fun _ => PrimFloat.nan; JSON_stringify := fun _ => str "{}" |}.

Definition respond (code : N) (reason : jsstring) (body : Settled Value) : Response :=
  {| status := code; statusText := reason; text := Fulfilled []; json := body |}.

(** A network that is down. *)
Definition offline : Network :=
  fun _ => Rejected (ErrorObject (str "FetchError") (str "getaddrinfo ENOTFOUND"))%string.

(** A network that answers every call with 200 and the parsed body [data]. *)
Definition answering (data : Value) : Network :=
  fun _ => Fulfilled (respond 200 (str "OK") (Fulfilled data)).

Definition eiffel : Value :=
  VObj [(str "osm_type", VStr (str "way"));
        (str "osm_id", VNum 5013364%float);
        (str "lat", VStr (str "48.8582599"));
        (str "lon", VStr (str "2.2945006"));
        (str "display_name", VStr (str "Tour Eiffel, Paris"));
        (str "address", VObj [(str "city", VStr (str "Paris"))]);
        (str "class", VStr (str "man_made"));
        (str "type", VStr (str "tower"))].

Definition handled : SSEServerTransport -> Value -> Settled () :=
  fun _ _ => Fulfilled ().

Definition unhandled : SSEServerTransport -> Value -> Settled () :=
  fun _ _ => Rejected (ErrorObject (str "ZodError") (str "invalid message")).

(** A network that answers every call with 503 and a readable body. *)
Definition unavailable : Network :=
  fun _ => Fulfilled {| status := 503; statusText := str "Service Unavailable";
                        text := Fulfilled (str "try later");
                        json := Rejected (ErrorObject (str "SyntaxError") (str "bad JSON")) |}.

(** A [fetch] that rejects with a string instead of an [Error]. *)
Definition rejectingWithString : Network :=
  fun _ => Rejected (NonError (VStr (str "socket hang up"))).

(** An SDK client whose every request succeeds. *)
Definition obligingSdk : Client.Sdk :=
  {| Client.connect := fun _ => Fulfilled ();
     Client.listTools := Fulfilled (VObj [(str "tools", VArr [])]);
     Client.callTool := fun _ _ => Fulfilled (VObj [(str "content", VArr [])]);
     Client.close := Fulfilled () |}.

(** An SDK client that cannot reach the server, and whose [close] fails too. *)
Definition unreachableSdk : Client.Sdk :=
  {| Client.connect := fun _ => Rejected (ErrorObject (str "Error") (str "ECONNREFUSED"));
     Client.listTools := Rejected (ErrorObject (str "Error") (str "Not connected"));
     Client.callTool := fun _ _ => Rejected (ErrorObject (str "Error") (str "Not connected"));
     Client.close := Rejected (ErrorObject (str "Error") (str "Not connected")) |}.

(** A URL parser that accepts the addresses starting with [http]. *)
Definition httpOnly (text : jsstring) : bool :=
  bool_decide (take 4 text = str "http").

End Samples.

Import JS OpenStreetMap Server.

(** * Properties *)

(** ** Strings *)

Lemma blank_trimStart (s : jsstring) : blank (trimStart s) = blank s.
Proof.
  induction s as [|c r IH]; [reflexivity|].
  simpl. destruct (isStripped c) eqn:Hc; simpl; rewrite ?Hc; auto.
Qed.

Lemma trimStart_nil (s : jsstring) : trimStart s = [] ↔ blank s = true.
Proof.
  induction s as [|c r IH]; simpl; [tauto|].
  destruct (isStripped c); simpl; [exact IH|].
  split; discriminate.
Qed.

Lemma blank_rev (s : jsstring) : blank (rev s) = blank s.
Proof.
  unfold blank. induction s as [|c r IH]; [reflexivity|].
  simpl. rewrite forallb_app, IH. simpl.
  destruct (isStripped c), (forallb isStripped r); reflexivity.
Qed.

Lemma trim_nil (s : jsstring) : trim s = [] ↔ blank s = true.
Proof.
  unfold trim, trimEnd.
  rewrite <- (blank_trimStart s), <- (blank_rev (trimStart s)), <- trimStart_nil.
  split; intros Heq.
  - apply (f_equal (@rev N)) in Heq. rewrite rev_involutive in Heq. exact Heq.
  - rewrite Heq. reflexivity.
Qed.

(** The guard of [queryOpenStreetMap], [!query || query.trim().length === 0],
    holds exactly for blank strings. *)
Lemma guard_blank (query : jsstring) :
  jsstring_eqb query [] || Nat.eqb (length (trim query)) 0 = blank query.
Proof.
  destruct (blank query) eqn:Hb.
  - apply trim_nil in Hb. rewrite Hb. apply orb_true_r.
  - assert (Hne : trim query ≠ []) by (rewrite trim_nil; congruence).
    destruct query as [|c r]; [discriminate|].
    destruct (trim (c :: r)); [congruence|]. reflexivity.
Qed.

(** ** The geocoding tool *)

Section ToolProperties.
Context `{Builtins}.

(** Unfolding the monad of [queryOpenStreetMap]. *)
Ltac run_async :=
  unfold tryCatch, fetch, await, throw, getMember, mbind, mret,
    Async_bind, Async_ret; cbn beta iota zeta.

(** Past the guard and the encoder, the function is its [try] block run on
    what the network answers. *)
Lemma query_settles (net : Network) (query : jsstring) (outcome : Settled Response) :
  settles net query outcome →
  ∃ encodedQuery,
    encodeURIComponent query = Some encodedQuery
    ∧ net {| url := apiUrl encodedQuery; headers := userAgent |} = outcome
    ∧ jsstring_eqb query [] || Nat.eqb (length (trim query)) 0 = false.
Proof.
  intros [Hb (enc & Henc & Hnet)]. exists enc.
  rewrite guard_blank. auto.
Qed.

(** C4, as the code has it: for every query that is empty or made of white
    space only, [queryOpenStreetMap] returns the envelope
    [{error: "Query parameter cannot be empty."}], with no [found] and no
    [query] field, and the log of outbound calls is unchanged: [fetch] is not
    invoked. *)
Theorem blank_query_short_circuits (net : Network) (query : jsstring) (log : list FetchCall) :
  blank query = true →
  queryOpenStreetMap net query log
  = (Fulfilled (VObj [(str "error", VStr (str "Query parameter cannot be empty."))]), log).
Proof.
  intros Hb. unfold queryOpenStreetMap. rewrite guard_blank, Hb. reflexivity.
Qed.

(** C5, as the code has it: for every collaborator failure ([fetch] rejects,
    status outside 2xx, or a body that does not parse) the error is caught
    and [queryOpenStreetMap] returns [{query, found: false, error}] whose
    [error] text is "Failed to query OpenStreetMap: " followed by a message;
    the tool callback wraps that envelope in one text block. Neither rejects,
    so no exception escapes, and exactly one outbound call was made. *)
Theorem collaborator_failure_is_caught (net : Network) (query : jsstring)
    (outcome : Settled Response) (log : list FetchCall) :
  settles net query outcome →
  collaboratorFails outcome →
  ∃ message call,
    let envelope :=
      VObj [(str "query", VStr query);
            (str "found", VBool false);
            (str "error", VStr (str "Failed to query OpenStreetMap: " ++ message))] in
    queryOpenStreetMap net query log = (Fulfilled envelope, log ++ [call])
    ∧ toolCallback net query log
      = (Fulfilled (VObj [(str "content",
                           VArr [VObj [(str "type", VStr (str "text"));
                                       (str "text", VStr (JSON_stringify envelope))]])]),
         log ++ [call]).
Proof.
  intros Hs Hfail. apply query_settles in Hs as (enc & Henc & Hnet & Hguard).
  unfold toolCallback, queryOpenStreetMap. rewrite Hguard, Henc. run_async.
  rewrite Hnet. destruct outcome as [response|e]; simpl in Hfail.
  - destruct (ok response) eqn:Hok; simpl.
    + destruct Hfail as [Hf|[e He]]; [discriminate|]. rewrite He.
      destruct e as [name message|v]; eauto.
    + destruct (text response) as [errorText|[name message|v]]; eauto.
  - destruct e as [name message|v]; eauto.
Qed.

(** A [try] whose [catch] block always returns normally returns normally. *)
Lemma tryCatch_fulfils {A : Type} (body : Async A) (handler : Thrown -> Async A)
    (log : list FetchCall) :
  (∀ e l, ∃ a, handler e l = (Fulfilled a, l)) →
  ∃ a l, tryCatch body handler log = (Fulfilled a, l).
Proof.
  intros Hh. unfold tryCatch. destruct (body log) as [[a|e] l]; [eauto|].
  destruct (Hh e l) as [a Ha]. eauto.
Qed.

(** X15: whatever the network does, the only rejection that leaves
    [queryOpenStreetMap] is the encoder's [URIError], raised before the [try]
    block and before any call. *)
Lemma query_rejects_only_before_try (net : Network) (query : jsstring)
    (log log' : list FetchCall) (e : Thrown) :
  queryOpenStreetMap net query log = (Rejected e, log') →
  e = URIError ∧ encodeURIComponent query = None ∧ log' = log.
Proof.
  unfold queryOpenStreetMap.
  destruct (jsstring_eqb query [] || Nat.eqb (length (trim query)) 0); [discriminate|].
  destruct (encodeURIComponent query) as [enc|].
  - unfold mbind at 1. unfold Async_bind at 1. unfold mret at 1. unfold Async_ret at 1.
    cbn beta iota zeta.
    match goal with |- tryCatch ?body ?handler log = _ → _ =>
      destruct (tryCatch_fulfils body handler log) as (a & l & ->)
    end; [eauto|discriminate].
  - unfold mbind, Async_bind, throw. cbn beta iota zeta.
    intros Heq. injection Heq as <- <-. auto.
Qed.

(** C7: when the upstream answers with a 2xx status and an empty JSON array,
    [queryOpenStreetMap] returns exactly [{query, found: false, message}],
    the message being
    [Could not find location information for "<query>".] *)
Theorem zero_results_envelope (net : Network) (query : jsstring) (log : list FetchCall) :
  respondsWith net query (VArr []) →
  fst (queryOpenStreetMap net query log)
  = Fulfilled
      (VObj [(str "query", VStr query);
             (str "found", VBool false);
             (str "message",
              VStr (str "Could not find location information for " ++ dquote
                    ++ query ++ dquote ++ str "."))]).
Proof.
  intros (response & Hs & Hok & Hjson).
  apply query_settles in Hs as (enc & Henc & Hnet & Hguard).
  unfold queryOpenStreetMap. rewrite Hguard, Henc. run_async.
  rewrite Hnet. simpl. rewrite Hok. simpl. rewrite Hjson. reflexivity.
Qed.

(** The envelope for a first element that is an object, and the rejection
    for one that is [null], depend on the first element only. *)
Lemma first_element_decides (net : Network) (query : jsstring) (first : Value)
    (rest : list Value) (log : list FetchCall) :
  respondsWith net query (VArr (first :: rest)) →
  fst (queryOpenStreetMap net query log)
  = fst (queryOpenStreetMap
           (fun _ => Fulfilled {| status := 200; statusText := []; text := Fulfilled [];
                                  json := Fulfilled (VArr [first]) |})
           query []).
Proof.
  intros (response & Hs & Hok & Hjson).
  apply query_settles in Hs as (enc & Henc & Hnet & Hguard).
  unfold queryOpenStreetMap. rewrite Hguard, Henc. run_async.
  rewrite Hnet. simpl. rewrite Hok. simpl. rewrite Hjson. simpl.
  destruct first; reflexivity.
Qed.


(** Two answers that agree on the first element give the same outcome,
    whatever follows it and whatever the first element is. *)
Lemma outcome_depends_on_first_element (net net' : Network) (query : jsstring)
    (first : Value) (rest rest' : list Value) (log : list FetchCall) :
  respondsWith net query (VArr (first :: rest)) →
  respondsWith net' query (VArr (first :: rest')) →
  fst (queryOpenStreetMap net query log) = fst (queryOpenStreetMap net' query log).
Proof.
  intros Hfirst Hsecond.
  rewrite (first_element_decides net query first rest log Hfirst).
  rewrite (first_element_decides net' query first rest' log Hsecond).
  reflexivity.
Qed.

(** C10: when the upstream array has more than one element and the first
    one is a result (an object whose [display_name], [lat] and [lon] are
    strings), the success envelope of [queryOpenStreetMap] is built from
    that first element, [data[0]], alone: [display_name] is its
    [display_name], [latitude] and [longitude] are [parseFloat] of its [lat]
    and [lon], [address_details] is its [address], and [osm_type], [osm_id],
    [class] and [type] are its own; the second and all later elements appear
    nowhere in it. *)
Theorem envelope_built_from_first_result (net : Network) (query : jsstring)
    (fields : list (jsstring * Value)) (second : Value) (rest : list Value)
    (display_name lat lon : jsstring) (log : list FetchCall) :
  respondsWith net query (VArr (VObj fields :: second :: rest)) →
  ownProperty fields (str "display_name") = Some (VStr display_name) →
  ownProperty fields (str "lat") = Some (VStr lat) →
  ownProperty fields (str "lon") = Some (VStr lon) →
  let first k := default VUndefined (ownProperty fields (str k)) in
  fst (queryOpenStreetMap net query log)
  = Fulfilled
      (VObj [(str "query", VStr query);
             (str "found", VBool true);
             (str "display_name", VStr display_name);
             (str "latitude", VNum (parseFloat (VStr lat)));
             (str "longitude", VNum (parseFloat (VStr lon)));
             (str "address_details", first "address"%string);
             (str "osm_type", first "osm_type"%string);
             (str "osm_id", first "osm_id"%string);
             (str "class", first "class"%string);
             (str "type", first "type"%string)]).
Proof.
  intros (response & Hs & Hok & Hjson) Hname Hlat Hlon first.
  apply query_settles in Hs as (enc & Henc & Hnet & Hguard).
  unfold queryOpenStreetMap. rewrite Hguard, Henc. run_async.
  rewrite Hnet. simpl. rewrite Hok. simpl. rewrite Hjson. simpl.
  rewrite Hname, Hlat, Hlon. reflexivity.
Qed.

End ToolProperties.

(** ** Session ids *)

Lemma length_hexDigits (k : nat) (n : N) (acc : jsstring) :
  length (hexDigits k n acc) = (k + length acc)%nat.
Proof.
  revert n acc. induction k as [|k IH]; intros n acc; simpl; [reflexivity|].
  rewrite IH. simpl. lia.
Qed.

(** A session id is 36 code units long. *)
Lemma length_uuidString (u : N) : length (uuidString u) = 36%nat.
Proof.
  unfold uuidString.
  generalize (length_hexDigits 32 u []). generalize (hexDigits 32 u []).
  intros h Hlen. rewrite !length_app, !length_take, !length_drop, Hlen. reflexivity.
Qed.


(** ** The registry *)

Lemma registryGet_own (own : gmap jsstring SSEServerTransport) (key : jsstring)
    (t : SSEServerTransport) :
  own !! key = Some t → registryGet own key = Own t.
Proof. intros Hk. unfold registryGet. rewrite Hk. reflexivity. Qed.

Lemma registryGet_absent (own : gmap jsstring SSEServerTransport) (key : jsstring) :
  own !! key = None → key ∉ objectPrototypeKeys → registryGet own key = Absent.
Proof.
  intros Hk Hp. unfold registryGet. rewrite Hk.
  rewrite bool_decide_eq_false_2 by exact Hp. reflexivity.
Qed.

Lemma registryGet_inherited (own : gmap jsstring SSEServerTransport) (key : jsstring) :
  own !! key = None → key ∈ objectPrototypeKeys → registryGet own key = Inherited key.
Proof.
  intros Hk Hp. unfold registryGet. rewrite Hk.
  rewrite bool_decide_eq_true_2 by exact Hp. reflexivity.
Qed.

(** ** The message router *)

(** An id that is neither registered nor a member of [Object.prototype]
    gets 404, whatever the body. *)
Lemma post_unknown_404 (s : ServerState) (sid : option jsstring) (body : Value)
    (handle : SSEServerTransport -> Value -> Settled ()) :
  transports s !! propertyKey sid = None →
  propertyKey sid ∉ objectPrototypeKeys →
  postMessages sid body handle s
  = ({| statusCode := 404; responseBody := str "Session not found or inactive" |}, s).
Proof.
  intros Hk Hp. unfold postMessages. rewrite (registryGet_absent _ _ Hk Hp). reflexivity.
Qed.

(** An id that is not registered but names a member of [Object.prototype]
    gets 500, whatever the body. *)
Lemma post_inherited_500 (s : ServerState) (sid : option jsstring) (body : Value)
    (handle : SSEServerTransport -> Value -> Settled ()) :
  transports s !! propertyKey sid = None →
  propertyKey sid ∈ objectPrototypeKeys →
  postMessages sid body handle s
  = ({| statusCode := 500; responseBody := str "Error processing message" |}, s).
Proof.
  intros Hk Hp. unfold postMessages. rewrite (registryGet_inherited _ _ Hk Hp). reflexivity.
Qed.

(** A registered id gets 200 when [handleMessage] completes and 500 when it
    throws. *)
Lemma post_registered (s : ServerState) (sid : option jsstring) (body : Value)
    (handle : SSEServerTransport -> Value -> Settled ()) (t : SSEServerTransport) :
  transports s !! propertyKey sid = Some t →
  statusCode (fst (postMessages sid body handle s))
  = match handle t body with Fulfilled _ => 200 | Rejected _ => 500 end.
Proof.
  intros Hk. unfold postMessages. rewrite (registryGet_own _ _ _ Hk).
  destruct (handle t body); reflexivity.
Qed.

(** C2, where the code departs from it: [constructor] is not a key of the
    empty registry, yet [transports["constructor"]] is the inherited
    [Object] function, which is truthy and has no [handleMessage]; the call
    throws inside the [try] and the response is 500, not 404. *)
Theorem post_inherited_key_is_500 (body : Value)
    (handle : SSEServerTransport -> Value -> Settled ()) :
  transports initial !! str "constructor" = None
  ∧ postMessages (Some (str "constructor")) body handle initial
    = ({| statusCode := 500; responseBody := str "Error processing message" |}, initial).
Proof. split; reflexivity. Qed.

(** C6: when [handleMessage] throws for a registered session id the router
    answers 500 "Error processing message" and the session's entry is still
    in the registry; and whatever the request and the outcome, the state
    after the [/messages] handler is the state before it. *)
Theorem failed_message_keeps_session (s : ServerState) (sid : option jsstring)
    (body : Value) (handle : SSEServerTransport -> Value -> Settled ())
    (t : SSEServerTransport) (e : Thrown) :
  transports s !! propertyKey sid = Some t →
  handle t body = Rejected e →
  fst (postMessages sid body handle s)
  = {| statusCode := 500; responseBody := str "Error processing message" |}
  ∧ transports (snd (postMessages sid body handle s)) !! propertyKey sid = Some t
  ∧ ∀ sid' body' handle' s', snd (postMessages sid' body' handle' s') = s'.
Proof.
  intros Hk He. split; [|split].
  - unfold postMessages. rewrite (registryGet_own _ _ _ Hk), He. reflexivity.
  - unfold postMessages. rewrite (registryGet_own _ _ _ Hk), He. exact Hk.
  - intros sid' body' handle' s'. unfold postMessages.
    destruct (registryGet _ _); [destruct (handle' _ _)| |]; reflexivity.
Qed.

(** ** The channel establisher and the lifecycle watcher *)

Section ServerProperties.
Context `{Builtins}.

(** The connection a [/sse] request adds sits at the next free index. *)
Lemma sseOpen_connection (u : N) (s : ServerState) :
  ∃ conn,
    connections (sseOpen u s) !! length (connections s) = Some conn
    ∧ mcpServer conn = connectionServer
    ∧ transport conn = {| endpoint := str "/messages"; uuid := u |}
    ∧ writableEnded conn = false ∧ closeListener conn = false
    ∧ handshake conn = Pending.
Proof.
  eexists. split.
  - unfold sseOpen. simpl. apply list_lookup_middle. reflexivity.
  - repeat split; reflexivity.
Qed.

(** C1, where the code departs from it: when [server.connect] throws, the
    [catch] block ends the response and returns. The entry written before the
    handshake is still in the registry afterwards, no [close] listener was
    attached, and so the later [close] of the request leaves it there too. *)
Theorem failed_handshake_leaves_entry (s : ServerState) (u : N) (error : Thrown)
    (resEnded : bool) :
  let c := length (connections s) in
  let t := {| endpoint := str "/messages"; uuid := u |} in
  let s' := sseSettle c (ConnectThrows error resEnded) (sseOpen u s) in
  transports (sseOpen u s) !! uuidString u = Some t
  ∧ transports s' !! uuidString u = Some t
  ∧ (∃ conn, connections s' !! c = Some conn
             ∧ writableEnded conn = true ∧ closeListener conn = false)
  ∧ transports (reqClose c s') !! uuidString u = Some t.
Proof.
  intros c t s'.
  assert (Hopen : transports (sseOpen u s) !! uuidString u = Some t).
  { unfold sseOpen, registrySet, sessionId. simpl. apply lookup_insert_eq. }
  destruct (sseOpen_connection u s) as (conn & Hc & _ & _ & Hended & Hlistener & Hpending).
  fold c in Hc.
  assert (Hlt : (c < length (connections (sseOpen u s)))%nat)
    by (eapply lookup_lt_Some; exact Hc).
  assert (Hs' : transports s' = transports (sseOpen u s)
                ∧ ∃ conn', connections s' !! c = Some conn'
                           ∧ writableEnded conn' = true ∧ closeListener conn' = false).
  { subst s'. unfold sseSettle. rewrite Hc, Hpending. simpl. split; [reflexivity|].
    eexists. split; [apply list_lookup_insert_eq; exact Hlt|]. simpl.
    rewrite Hended, Hlistener. destruct resEnded; split; reflexivity. }
  destruct Hs' as (Htr & conn' & Hc' & Hended' & Hlistener').
  repeat split.
  - exact Hopen.
  - rewrite Htr. exact Hopen.
  - exists conn'. auto.
  - unfold reqClose. rewrite Hc', Hlistener', Htr. exact Hopen.
Qed.





(** C9, as the code has it: the processor built for a new [/sse] connection
    has exactly one registered tool, named [query_openstreetmap], and its
    parameter schema accepts exactly the argument objects whose [query] is a
    string, the empty string included. *)
Theorem connection_has_one_tool (u : N) (s : ServerState) :
  ∃ conn registered,
    connections (sseOpen u s) !! length (connections s) = Some conn
    ∧ registeredTools (mcpServer conn) = [(str "query_openstreetmap", registered)]
    ∧ ∀ args,
        shapeAccepts (inputSchema registered) args = true
        ↔ ∃ props query, args = VObj props
                         ∧ ownProperty props (str "query") = Some (VStr query).
Proof.
  destruct (sseOpen_connection u s) as (conn & Hc & Hserver & _).
  exists conn. eexists. split; [exact Hc|]. split; [rewrite Hserver; reflexivity|].
  intros args. unfold shapeAccepts. cbn [inputSchema forallb fst snd]. split.
  - destruct args as [| | | | | |props]; try discriminate.
    destruct (ownProperty props (str "query")) as [[| | | |query| |]|] eqn:Hq;
      try discriminate.
    intros _. exists props, query. split; [reflexivity|exact Hq].
  - intros (props & query & -> & Hq). rewrite Hq. reflexivity.
Qed.

End ServerProperties.

(** ** Concrete runs *)

Import Samples.

(** The sample network [answering data] does answer with [data]. *)
Lemma answering_responds (data : Value) (query encodedQuery : jsstring) :
  blank query = false →
  encodeURIComponent query = Some encodedQuery →
  respondsWith (answering data) query data.
Proof.
  intros Hb Henc. exists (respond 200 (str "OK") (Fulfilled data)).
  split; [split; [exact Hb|exists encodedQuery; split; [exact Henc|reflexivity]]|].
  split; reflexivity.
Qed.

(** The encoder on the query of the client script. *)
Example encode_eiffel :
  encodeURIComponent (str "Eiffel Tower, Paris") = Some (str "Eiffel%20Tower%2C%20Paris").
Proof. reflexivity. Qed.

(** A lone surrogate makes the encoder throw before the [try] block: the
    rejection leaves [queryOpenStreetMap], and no call is made. *)
Example lone_surrogate_rejects :
  queryOpenStreetMap offline [0xD83D] [] = (Rejected URIError, []).
Proof. reflexivity. Qed.

(** A blank query (space, TAB, NBSP, ideographic space) makes no call. *)
Lemma blank_query_witness :
  blank [0x20; 0x09; 0xA0; 0x3000] = true
  ∧ queryOpenStreetMap offline [0x20; 0x09; 0xA0; 0x3000] []
    = (Fulfilled (VObj [(str "error", VStr (str "Query parameter cannot be empty."))]), []).
Proof.
  split; [reflexivity|].
  apply (blank_query_short_circuits offline [0x20; 0x09; 0xA0; 0x3000] []).
  reflexivity.
Defined.

(** C4 as stated fails on the empty query: the envelope returned has the one
    key [error]; it has no [found] property. *)
Lemma blank_envelope_lacks_found :
  ∃ props,
    queryOpenStreetMap offline [] [] = (Fulfilled (VObj props), [])
    ∧ map fst props = [str "error"]
    ∧ ownProperty props (str "found") = None.
Proof. eexists. repeat split. Qed.

Lemma collaborator_failure_witness :
  settles offline (str "Paris")
    (Rejected (ErrorObject (str "FetchError") (str "getaddrinfo ENOTFOUND")))
  ∧ collaboratorFails
      (Rejected (ErrorObject (str "FetchError") (str "getaddrinfo ENOTFOUND")))
  ∧ ∃ message call,
      queryOpenStreetMap offline (str "Paris") []
      = (Fulfilled
           (VObj [(str "query", VStr (str "Paris"));
                  (str "found", VBool false);
                  (str "error", VStr (str "Failed to query OpenStreetMap: " ++ message))]),
         [] ++ [call]).
Proof.
  assert (Hs : settles offline (str "Paris")
                 (Rejected (ErrorObject (str "FetchError") (str "getaddrinfo ENOTFOUND")))).
  { split; [reflexivity|]. exists (str "Paris"). split; reflexivity. }
  split; [exact Hs|]. split; [exact I|].
  destruct (collaborator_failure_is_caught offline (str "Paris") _ [] Hs I)
    as (message & call & Hq & _).
  exists message, call. exact Hq.
Defined.

(** C5 as stated fails on shape: the envelope of a collaborator failure has
    the keys [query], [found], [error]; the envelope of an input error has
    the key [error] alone. *)
Lemma failure_envelopes_differ_in_shape :
  ∃ upstream input,
    fst (queryOpenStreetMap offline (str "Paris") []) = Fulfilled upstream
    ∧ fst (queryOpenStreetMap offline [] []) = Fulfilled input
    ∧ keys upstream = [str "query"; str "found"; str "error"]
    ∧ keys input = [str "error"].
Proof. do 2 eexists. repeat split. Qed.

Lemma zero_results_witness :
  respondsWith (answering (VArr [])) (str "Atlantis") (VArr [])
  ∧ fst (queryOpenStreetMap (answering (VArr [])) (str "Atlantis") [])
    = Fulfilled
        (VObj [(str "query", VStr (str "Atlantis"));
               (str "found", VBool false);
               (str "message",
                VStr (str "Could not find location information for " ++ dquote
                      ++ str "Atlantis" ++ dquote ++ str "."))]).
Proof.
  assert (Hr : respondsWith (answering (VArr [])) (str "Atlantis") (VArr [])).
  { apply (answering_responds _ _ (str "Atlantis")); reflexivity. }
  split; [exact Hr|].
  exact (zero_results_envelope (answering (VArr [])) (str "Atlantis") [] Hr).
Defined.


Lemma first_of_many_witness :
  let other := VObj [(str "display_name", VStr (str "Eiffel Tower, Las Vegas"));
                     (str "lat", VStr (str "36.1125")); (str "lon", VStr (str "-115.1727"))] in
  respondsWith (answering (VArr [eiffel; other; VNull])) (str "Eiffel Tower")
    (VArr [eiffel; other; VNull])
  ∧ fst (queryOpenStreetMap (answering (VArr [eiffel; other; VNull])) (str "Eiffel Tower") [])
    = Fulfilled
        (VObj [(str "query", VStr (str "Eiffel Tower"));
               (str "found", VBool true);
               (str "display_name", VStr (str "Tour Eiffel, Paris"));
               (str "latitude", VNum (parseFloat (VStr (str "48.8582599"))));
               (str "longitude", VNum (parseFloat (VStr (str "2.2945006"))));
               (str "address_details", VObj [(str "city", VStr (str "Paris"))]);
               (str "osm_type", VStr (str "way"));
               (str "osm_id", VNum 5013364%float);
               (str "class", VStr (str "man_made"));
               (str "type", VStr (str "tower"))]).
Proof.
  intros other.
  assert (Hr : respondsWith (answering (VArr [eiffel; other; VNull])) (str "Eiffel Tower")
                 (VArr [eiffel; other; VNull]))
    by (apply (answering_responds _ _ (str "Eiffel%20Tower")); reflexivity).
  split; [exact Hr|].
  exact (envelope_built_from_first_result (answering (VArr [eiffel; other; VNull]))
           (str "Eiffel Tower") _ other [VNull] _ _ _ [] Hr eq_refl eq_refl eq_refl).
Defined.

Lemma failed_message_witness :
  let s := exec [GetSse 5; ConnectSettles 0 ConnectOk] initial in
  let t := {| endpoint := str "/messages"; uuid := 5 |} in
  transports s !! propertyKey (Some (uuidString 5)) = Some t
  ∧ unhandled t VNull = Rejected (ErrorObject (str "ZodError") (str "invalid message"))
  ∧ fst (postMessages (Some (uuidString 5)) VNull unhandled s)
    = {| statusCode := 500; responseBody := str "Error processing message" |}.
Proof.
  intros s t.
  assert (Hk : transports s !! propertyKey (Some (uuidString 5)) = Some t)
    by reflexivity.
  split; [exact Hk|]. split; [reflexivity|].
  exact (proj1 (failed_message_keeps_session s (Some (uuidString 5)) VNull unhandled t _
                  Hk eq_refl)).
Defined.



(** C9 as stated fails on "non-empty": the schema of the registered tool
    accepts the empty string for [query]. *)
Lemma schema_accepts_empty_query :
  ∃ registered,
    registeredTools connectionServer = [(str "query_openstreetmap", registered)]
    ∧ shapeAccepts (inputSchema registered) (VObj [(str "query", VStr [])]) = true.
Proof. eexists. split; reflexivity. Qed.

(** * Further properties of the code *)

(** ** The geocoding tool: calls, outcomes, envelopes *)

Section ToolCoverage.
Context `{Builtins}.

(** Running the [try] block on each way the network and the body can turn
    out. *)
Ltac split_paths :=
  repeat match goal with
    | |- context [match ?x with _ => _ end] =>
        match type of x with
        | Settled _ => destruct x as [?|[? ?|?]] eqn:?
        | Value => destruct x eqn:?
        | bool => destruct x eqn:?
        end; cbn beta iota zeta
    | |- context [if ?b then _ else _] => destruct b eqn:?; cbn beta iota zeta
    end.

Ltac enter_try Hguard Henc :=
  unfold queryOpenStreetMap; rewrite Hguard, Henc;
  unfold tryCatch, fetch, await, throw, getMember, mbind, mret,
    Async_bind, Async_ret; cbn beta iota zeta.

(** X1: [queryOpenStreetMap] makes at most one outbound call and never
    touches the calls already logged: the log grows by the single request
    for the encoded query when the query is neither blank nor malformed, and
    by nothing otherwise, whatever the network answers. *)
Theorem outbound_calls (net : Network) (query : jsstring) (log : list FetchCall) :
  snd (queryOpenStreetMap net query log)
  = log ++ (if blank query then []
            else match encodeURIComponent query with
                 | Some encodedQuery => [request encodedQuery]
                 | None => []
                 end).
Proof.
  destruct (blank query) eqn:Hb.
  - unfold queryOpenStreetMap. rewrite guard_blank, Hb. simpl. rewrite app_nil_r. reflexivity.
  - pose proof (guard_blank query) as Hguard. rewrite Hb in Hguard.
    destruct (encodeURIComponent query) as [enc|] eqn:Henc.
    + enter_try Hguard Henc. unfold request. split_paths; reflexivity.
    + unfold queryOpenStreetMap. rewrite Hguard, Henc. simpl. rewrite app_nil_r. reflexivity.
Qed.

(** Once the call is made the function returns an envelope that begins with
    the query and a boolean [found]. *)
Lemma called_envelope (net : Network) (query encodedQuery : jsstring)
    (log : list FetchCall) :
  blank query = false →
  encodeURIComponent query = Some encodedQuery →
  ∃ found rest,
    fst (queryOpenStreetMap net query log)
    = Fulfilled (VObj ((str "query", VStr query) :: (str "found", VBool found) :: rest))
    ∧ (map fst rest = [str "message"] ∧ found = false
       ∨ map fst rest = [str "error"] ∧ found = false
       ∨ map fst rest = map str ["display_name"; "latitude"; "longitude";
                                 "address_details"; "osm_type"; "osm_id";
                                 "class"; "type"]%string ∧ found = true).
Proof.
  intros Hb Henc. pose proof (guard_blank query) as Hguard. rewrite Hb in Hguard.
  enter_try Hguard Henc.
  split_paths; simpl; do 2 eexists; (split; [reflexivity|]); simpl; auto.
Qed.

(** X2: every value [queryOpenStreetMap] returns is an object of one of four
    shapes: [{error}] (blank query), [{query, found, message}] or
    [{query, found, error}] with [found] false, or the ten-key success
    envelope with [found] true; outside the first shape [query] is the
    argument itself. *)
Theorem envelope_shapes (net : Network) (query : jsstring) (log log' : list FetchCall)
    (v : Value) :
  queryOpenStreetMap net query log = (Fulfilled v, log') →
  ∃ props,
    v = VObj props
    ∧ (blank query = true ∧ map fst props = [str "error"]
       ∨ blank query = false
         ∧ ownProperty props (str "query") = Some (VStr query)
         ∧ (ownProperty props (str "found") = Some (VBool false)
            ∧ (map fst props = map str ["query"; "found"; "message"]%string
               ∨ map fst props = map str ["query"; "found"; "error"]%string)
            ∨ ownProperty props (str "found") = Some (VBool true)
              ∧ map fst props
                = map str ["query"; "found"; "display_name"; "latitude"; "longitude";
                           "address_details"; "osm_type"; "osm_id"; "class";
                           "type"]%string)).
Proof.
  intros Hrun. destruct (blank query) eqn:Hb.
  - unfold queryOpenStreetMap in Hrun. rewrite guard_blank, Hb in Hrun.
    injection Hrun as <- _. eexists. split; [reflexivity|]. left. auto.
  - destruct (encodeURIComponent query) as [enc|] eqn:Henc.
    + destruct (called_envelope net query enc log Hb Henc) as (found & rest & Hv & Hshape).
      rewrite Hrun in Hv. simpl in Hv. injection Hv as ->.
      eexists. split; [reflexivity|]. right. split; [reflexivity|].
      split; [reflexivity|].
      destruct Hshape as [[Hk ->]|[[Hk ->]|[Hk ->]]]; simpl; rewrite Hk; auto.
    + unfold queryOpenStreetMap in Hrun. rewrite guard_blank, Hb, Henc in Hrun.
      discriminate.
Qed.

(** X3: the input-error envelope is returned for blank queries only. *)
Theorem input_error_only_when_blank (net : Network) (query : jsstring)
    (log : list FetchCall) :
  fst (queryOpenStreetMap net query log)
  = Fulfilled (VObj [(str "error", VStr (str "Query parameter cannot be empty."))]) →
  blank query = true.
Proof.
  intros Hrun. destruct (blank query) eqn:Hb; [reflexivity|].
  destruct (encodeURIComponent query) as [enc|] eqn:Henc.
  - destruct (called_envelope net query enc log Hb Henc) as (found & rest & Hv & _).
    rewrite Hrun in Hv. discriminate.
  - unfold queryOpenStreetMap in Hrun. rewrite guard_blank, Hb, Henc in Hrun.
    discriminate.
Qed.

(** X4: when the status is outside 2xx and the body text can be read, the
    envelope reports the status code and status text; [response.json()] is
    not consulted. *)
Theorem http_error_envelope (net : Network) (query : jsstring) (response : Response)
    (errorText : jsstring) (log : list FetchCall) :
  settles net query (Fulfilled response) →
  ok response = false →
  text response = Fulfilled errorText →
  fst (queryOpenStreetMap net query log)
  = Fulfilled
      (VObj [(str "query", VStr query);
             (str "found", VBool false);
             (str "error",
              VStr (str "Failed to query OpenStreetMap: "
                    ++ str "Nominatim API request failed with status "
                    ++ decimal (status response) ++ str ": " ++ statusText response))]).
Proof.
  intros Hs Hok Htext. apply query_settles in Hs as (enc & Henc & Hnet & Hguard).
  enter_try Hguard Henc. rewrite Hnet. cbn beta iota zeta.
  rewrite Hok. simpl. rewrite Htext. reflexivity.
Qed.

(** X5: a rejection of [fetch] with a value that is not an [Error] is
    reported as "An unknown error occurred". *)
Theorem non_error_rejection_envelope (net : Network) (query : jsstring) (thrown : Value)
    (log : list FetchCall) :
  settles net query (Rejected (NonError thrown)) →
  fst (queryOpenStreetMap net query log)
  = Fulfilled
      (VObj [(str "query", VStr query);
             (str "found", VBool false);
             (str "error",
              VStr (str "Failed to query OpenStreetMap: "
                    ++ str "An unknown error occurred"))]).
Proof.
  intros Hs. apply query_settles in Hs as (enc & Henc & Hnet & Hguard).
  enter_try Hguard Henc. rewrite Hnet. reflexivity.
Qed.

(** X6: a 2xx answer whose body parses to a falsy value ([null], [false],
    zero, the empty string) is treated like an empty result list. *)
Theorem falsy_body_is_not_found (net : Network) (query : jsstring) (data : Value)
    (log : list FetchCall) :
  respondsWith net query data →
  truthy data = false →
  fst (queryOpenStreetMap net query log)
  = Fulfilled
      (VObj [(str "query", VStr query);
             (str "found", VBool false);
             (str "message",
              VStr (str "Could not find location information for " ++ dquote
                    ++ query ++ dquote ++ str "."))]).
Proof.
  intros (response & Hs & Hok & Hjson) Hfalsy.
  apply query_settles in Hs as (enc & Henc & Hnet & Hguard).
  enter_try Hguard Henc. rewrite Hnet. cbn beta iota zeta.
  rewrite Hok. simpl. rewrite Hjson, Hfalsy. reflexivity.
Qed.

(** X7: a 2xx answer whose array starts with [null] does not give a success
    envelope: reading [display_name] off [null] throws inside the [try], and
    the failure envelope is returned. *)
Theorem null_first_element_is_failure (net : Network) (query : jsstring)
    (rest : list Value) (log : list FetchCall) :
  respondsWith net query (VArr (VNull :: rest)) →
  ∃ message,
    fst (queryOpenStreetMap net query log)
    = Fulfilled
        (VObj [(str "query", VStr query);
               (str "found", VBool false);
               (str "error", VStr (str "Failed to query OpenStreetMap: " ++ message))]).
Proof.
  intros (response & Hs & Hok & Hjson).
  apply query_settles in Hs as (enc & Henc & Hnet & Hguard).
  enter_try Hguard Henc. rewrite Hnet. cbn beta iota zeta.
  rewrite Hok. simpl. rewrite Hjson. simpl. eexists. reflexivity.
Qed.

End ToolCoverage.

(** ** The request URL *)

Lemma hexDigit_unreserved (d : N) : d < 16 → isUnreserved (hexDigit true d) = true.
Proof.
  intros Hd. destruct d as [|p]; [reflexivity|].
  do 4 (destruct p as [p|p|]; try reflexivity); lia.
Qed.

Lemma percent_safe (byte : N) :
  byte < 256 → Forall (fun c => isUnreserved c = true ∨ c = 0x25) (percent byte).
Proof.
  intros Hb. unfold percent.
  constructor; [right; reflexivity|].
  constructor; [left; apply hexDigit_unreserved; apply N.Div0.div_lt_upper_bound; lia|].
  constructor; [left; apply hexDigit_unreserved; apply N.mod_lt; lia|].
  constructor.
Qed.

Lemma percentUtf8_safe (cp : N) :
  cp < 0x110000 → Forall (fun c => isUnreserved c = true ∨ c = 0x25) (percentUtf8 cp).
Proof.
  intros Hcp. unfold percentUtf8.
  pose proof (N.mod_lt cp 64 ltac:(lia)) as Hm0.
  pose proof (N.mod_lt (cp / 64) 64 ltac:(lia)) as Hm1.
  pose proof (N.mod_lt (cp / 4096) 64 ltac:(lia)) as Hm2.
  destruct (cp <? 0x80) eqn:Hb1; [apply percent_safe; apply N.ltb_lt in Hb1; lia|].
  destruct (cp <? 0x800) eqn:Hb2.
  { apply N.ltb_lt in Hb2.
    assert (cp / 64 < 32) by (apply N.Div0.div_lt_upper_bound; lia).
    rewrite Forall_app. split; apply percent_safe; lia. }
  destruct (cp <? 0x10000) eqn:Hb3.
  { apply N.ltb_lt in Hb3.
    assert (cp / 4096 < 16) by (apply N.Div0.div_lt_upper_bound; lia).
    rewrite !Forall_app. repeat split; apply percent_safe; lia. }
  assert (cp / 262144 < 5) by (apply N.Div0.div_lt_upper_bound; lia).
  rewrite !Forall_app. repeat split; apply percent_safe; lia.
Qed.

(** On a string of 16-bit code units the encoder emits unreserved
    characters and percent signs only. *)
Lemma encodeURIComponent_safe (n : nat) :
  ∀ s encoded : jsstring,
    (length s ≤ n)%nat →
    Forall (fun c => c < 0x10000) s →
    encodeURIComponent s = Some encoded →
    Forall (fun c => isUnreserved c = true ∨ c = 0x25) encoded.
Proof.
  induction n as [|n IH]; intros s encoded Hlen Hunits Henc.
  - destruct s; [|simpl in Hlen; lia]. injection Henc as <-. constructor.
  - destruct s as [|c r]; [injection Henc as <-; constructor|].
    simpl in Hlen. apply Forall_cons in Hunits as [Hc Hr]. simpl in Henc.
    destruct (isUnreserved c) eqn:Hu.
    { destruct (encodeURIComponent r) as [e|] eqn:He; [|discriminate].
      injection Henc as <-. constructor; [left; exact Hu|].
      apply (IH r e); [lia|exact Hr|exact He]. }
    destruct (isLowSurrogate c) eqn:Hlow; [discriminate|].
    destruct (isHighSurrogate c) eqn:Hhigh.
    { destruct r as [|c2 r']; [discriminate|].
      destruct (isLowSurrogate c2) eqn:Hlow2; [|discriminate].
      destruct (encodeURIComponent r') as [e|] eqn:He; [|discriminate].
      injection Henc as <-. simpl in Hlen. apply Forall_cons in Hr as [_ Hr'].
      rewrite Forall_app. split; [|apply (IH r' e); [lia|exact Hr'|exact He]].
      apply percentUtf8_safe. unfold isHighSurrogate, isLowSurrogate in *.
      apply andb_prop in Hhigh as [_ Hc1]. apply andb_prop in Hlow2 as [_ Hc2].
      apply N.leb_le in Hc1, Hc2. nia. }
    destruct (encodeURIComponent r) as [e|] eqn:He; [|discriminate].
    injection Henc as <-. rewrite Forall_app.
    split; [apply percentUtf8_safe; lia|apply (IH r e); [lia|exact Hr|exact He]].
Qed.

Section UrlCoverage.
Context `{Builtins}.

(** X8: the query cannot reshape the request: every call the function makes
    for a query of 16-bit code units goes to the Nominatim search address,
    carries the User-Agent header, ends in [&format=json&limit=1], and
    between [q=] and that suffix holds unreserved characters and percent
    signs only (no [&], [=], [#], [?], [/], [+] or space). *)
Theorem request_url_is_safe (net : Network) (query : jsstring) (call : FetchCall) :
  Forall (fun c => c < 0x10000) query →
  call ∈ snd (queryOpenStreetMap net query []) →
  ∃ encodedQuery,
    url call = str "https://nominatim.openstreetmap.org/search?q=" ++ encodedQuery
               ++ str "&format=json&limit=1"
    ∧ headers call = userAgent
    ∧ Forall (fun c => isUnreserved c = true ∨ c = 0x25) encodedQuery
    ∧ Forall (fun c => c ∉ str "&=#?/+ ") encodedQuery.
Proof.
  intros Hunits Hin. rewrite outbound_calls in Hin. simpl in Hin.
  destruct (blank query); [apply elem_of_nil in Hin; destruct Hin|].
  destruct (encodeURIComponent query) as [enc|] eqn:Henc;
    [|apply elem_of_nil in Hin; destruct Hin].
  apply list_elem_of_singleton in Hin as ->. exists enc.
  pose proof (encodeURIComponent_safe (length query) query enc (le_n _) Hunits Henc)
    as Hsafe.
  repeat split; [exact Hsafe|].
  eapply Forall_impl; [exact Hsafe|]. intros c Hc Hbad. simpl in Hc.
  assert (Hcases : c = 0x26 ∨ c = 0x3D ∨ c = 0x23 ∨ c = 0x3F ∨ c = 0x2F ∨ c = 0x2B
                   ∨ c = 0x20).
  { unfold str in Hbad. simpl in Hbad.
    repeat (apply elem_of_cons in Hbad as [->|Hbad]; [auto 10|]).
    apply elem_of_nil in Hbad. destruct Hbad. }
  destruct Hc as [Hc| ->]; [|lia].
  destruct Hcases as [->|[->|[->|[->|[->|[->| ->]]]]]]; discriminate Hc.
Qed.

End UrlCoverage.

(** ** The server over sequences of turns *)

Section ServerCoverage.
Context `{Builtins}.

Lemma exec_cons (e : Event) (events : list Event) (s : ServerState) :
  exec (e :: events) s = exec events (snd (step e s)).
Proof. reflexivity. Qed.

(** A property every turn preserves holds after any sequence of turns. *)
Lemma exec_invariant (P : ServerState → Prop) :
  (∀ e s, P s → P (snd (step e s))) →
  ∀ events s, P s → P (exec events s).
Proof.
  intros Hstep events. induction events as [|e rest IH]; intros s Hs; [exact Hs|].
  rewrite exec_cons. apply IH. apply Hstep. exact Hs.
Qed.

(** What a turn does to the registry and to the list of connections. *)
Lemma step_effect (e : Event) (s : ServerState) :
  (∃ u, e = GetSse u ∧ snd (step e s) = sseOpen u s)
  ∨ (∃ c r, e = ConnectSettles c r ∧ snd (step e s) = sseSettle c r s)
  ∨ (∃ c, e = ReqClose c ∧ snd (step e s) = reqClose c s)
  ∨ snd (step e s) = s.
Proof.
  destruct e as [|u|c r|c|sid body handle]; simpl; eauto 10.
  right. right. right. unfold postMessages.
  destruct (registryGet _ _); [destruct (handle _ _)| |]; reflexivity.
Qed.

(** The settling of a handshake rewrites one connection and keeps its
    transport and processor. *)
Lemma sseSettle_lookup (c c' : nat) (r : ConnectResult) (s : ServerState)
    (conn : Connection) :
  connections (sseSettle c r s) !! c' = Some conn →
  ∃ before,
    connections s !! c' = Some before
    ∧ transport conn = transport before ∧ mcpServer conn = mcpServer before
    ∧ (conn = before
       ∨ handshake before = Pending
         ∧ (r = ConnectOk ∧ handshake conn = Connected ∧ closeListener conn = true
              ∧ writableEnded conn = writableEnded before
            ∨ (∃ error ended, r = ConnectThrows error ended)
              ∧ handshake conn = Failed ∧ closeListener conn = closeListener before
              ∧ writableEnded conn = true)).
Proof.
  unfold sseSettle. destruct (connections s !! c) as [old|] eqn:Hold; [|eauto 10].
  destruct (handshake old) eqn:Hh, r as [|error ended]; simpl; eauto 10;
    intros Hc'; destruct (decide (c = c')) as [->|Hne];
    try (rewrite list_lookup_insert_ne in Hc' by exact Hne; eauto 10);
    rewrite list_lookup_insert_eq in Hc' by (eapply lookup_lt_Some; exact Hold);
    injection Hc' as <-; exists old; simpl; repeat split; auto.
  - right. split; [exact Hh|]. left. auto.
  - right. split; [exact Hh|]. right. split; [eauto|].
    repeat split. destruct (writableEnded old || ended); reflexivity.
Qed.

Lemma sseSettle_keeps (c c' : nat) (r : ConnectResult) (s : ServerState)
    (conn : Connection) :
  connections s !! c' = Some conn →
  ∃ after, connections (sseSettle c r s) !! c' = Some after
           ∧ transport after = transport conn.
Proof.
  intros Hc'. unfold sseSettle.
  destruct (connections s !! c) as [old|] eqn:Hold; [|eauto].
  destruct (handshake old), r as [|error ended]; simpl; eauto;
    destruct (decide (c = c')) as [->|Hne];
    try (rewrite list_lookup_insert_ne by exact Hne; eauto);
    rewrite list_lookup_insert_eq by (eapply lookup_lt_Some; exact Hold);
    eexists; (split; [reflexivity|]); simpl; congruence.
Qed.

(** A connection keeps its index and its transport for good. *)
Lemma step_keeps_connection (e : Event) (s : ServerState) (c : nat) (conn : Connection) :
  connections s !! c = Some conn →
  ∃ after, connections (snd (step e s)) !! c = Some after
           ∧ transport after = transport conn.
Proof.
  intros Hc.
  destruct (step_effect e s) as [(u & _ & ->)|[(c' & r & _ & ->)|[(c' & _ & ->)| ->]]].
  - exists conn. split; [|reflexivity]. unfold sseOpen. simpl.
    apply lookup_app_l_Some. exact Hc.
  - apply sseSettle_keeps. exact Hc.
  - exists conn. split; [|reflexivity]. unfold reqClose.
    destruct (connections s !! c') as [conn'|]; [|exact Hc].
    destruct (closeListener conn'); exact Hc.
  - eauto.
Qed.

Lemma exec_keeps_connection (events : list Event) :
  ∀ (s : ServerState) (c : nat) (conn : Connection),
    connections s !! c = Some conn →
    ∃ after, connections (exec events s) !! c = Some after
             ∧ transport after = transport conn.
Proof.
  induction events as [|e rest IH]; intros s c conn Hc; [eauto|].
  rewrite exec_cons.
  destruct (step_keeps_connection e s c conn Hc) as (mid & Hmid & Hmt).
  destruct (IH _ c mid Hmid) as (after & Hafter & Hat).
  exists after. split; [exact Hafter|congruence].
Qed.

(** X9: the registry entry is usable from the moment the [/sse] handler
    suspends on the handshake, and stays so when the handshake settles,
    either way: a POST naming the new session id whose body the parsers
    accept is dispatched to its transport and answered 200 or 500 by how
    [handleMessage] settles; one whose body a parser refuses is answered by
    the parser and not dispatched. *)
Theorem new_session_is_routable (u : N) (s : ServerState) (r : ConnectResult)
    (parsing : BodyParsing) (handle : SSEServerTransport -> Value -> Settled ()) :
  let t := {| endpoint := str "/messages"; uuid := u |} in
  let answer :=
    match parsing with
    | Refused response => response
    | Accepted body =>
        match handle t body with
        | Fulfilled _ => {| statusCode := 200; responseBody := str "OK" |}
        | Rejected _ =>
            {| statusCode := 500; responseBody := str "Error processing message" |}
        end
    end in
  fst (postRequest (Some (uuidString u)) parsing handle (sseOpen u s)) = answer
  ∧ fst (postRequest (Some (uuidString u)) parsing handle
           (sseSettle (length (connections s)) r (sseOpen u s))) = answer.
Proof.
  intros t answer.
  assert (Hopen : transports (sseOpen u s) !! uuidString u = Some t).
  { unfold sseOpen, registrySet, sessionId. simpl. apply lookup_insert_eq. }
  assert (Hsettle : transports (sseSettle (length (connections s)) r (sseOpen u s))
                    = transports (sseOpen u s)).
  { unfold sseSettle. destruct (connections (sseOpen u s) !! _) as [conn|]; [|reflexivity].
    destruct (handshake conn), r; reflexivity. }
  destruct parsing as [body|response]; [|split; reflexivity].
  unfold postRequest, postMessages. rewrite Hsettle. simpl propertyKey.
  rewrite (registryGet_own _ _ _ Hopen). subst answer.
  destruct (handle t body); split; reflexivity.
Qed.

(** X10: a session is evicted only by the [close] of a connection that
    carries its id. Through any sequence of turns in which every closing
    connection has another session id, a registered id stays registered:
    failed messages, other sessions' handshakes and closes, and health
    checks evict nothing, and there is no timeout. *)
Theorem session_persists_until_its_close (events : list Event) :
  ∀ (s : ServerState) (sid : jsstring),
    is_Some (transports s !! sid) →
    (∀ c conn, ReqClose c ∈ events →
               connections (exec events s) !! c = Some conn →
               sessionId (transport conn) ≠ sid) →
    is_Some (transports (exec events s) !! sid).
Proof.
  induction events as [|e rest IH]; intros s sid Hreg Hother; [exact Hreg|].
  rewrite exec_cons. apply IH.
  - destruct (step_effect e s) as [(u & _ & ->)|[(c & r & _ & ->)|[(c & -> & ->)| ->]]].
    + unfold sseOpen, registrySet. simpl.
      destruct (decide (sessionId {| endpoint := str "/messages"; uuid := u |} = sid))
        as [<-|Hne].
      * rewrite lookup_insert_eq. eauto.
      * rewrite lookup_insert_ne by exact Hne. exact Hreg.
    + unfold sseSettle. destruct (connections s !! c) as [conn|]; [|exact Hreg].
      destruct (handshake conn), r; exact Hreg.
    + unfold reqClose. destruct (connections s !! c) as [conn|] eqn:Hc; [|exact Hreg].
      destruct (closeListener conn); [|exact Hreg]. simpl. unfold registryDelete.
      rewrite lookup_delete_ne; [exact Hreg|].
      destruct (exec_keeps_connection (ReqClose c :: rest) s c conn Hc)
        as (after & Hafter & Hat).
      rewrite <- Hat. apply (Hother c after); [|exact Hafter].
      apply elem_of_cons. left. reflexivity.
    + exact Hreg.
  - intros c conn Hin Hc. apply (Hother c conn); [|exact Hc].
    apply elem_of_cons. right. exact Hin.
Qed.

(** The registry invariant of one state. *)
Lemma registry_invariant_step (e : Event) (s : ServerState) :
  (∀ k t, transports s !! k = Some t →
          k = sessionId t ∧ endpoint t = str "/messages"
          ∧ ∃ c conn, connections s !! c = Some conn ∧ transport conn = t) →
  ∀ k t, transports (snd (step e s)) !! k = Some t →
         k = sessionId t ∧ endpoint t = str "/messages"
         ∧ ∃ c conn, connections (snd (step e s)) !! c = Some conn ∧ transport conn = t.
Proof.
  intros Hinv k t Hk.
  assert (Hlift : transports s !! k = Some t →
                  k = sessionId t ∧ endpoint t = str "/messages"
                  ∧ ∃ c conn, connections (snd (step e s)) !! c = Some conn
                              ∧ transport conn = t).
  { intros Hold. destruct (Hinv k t Hold) as (Hkey & Hend & c & conn & Hc & Ht).
    destruct (step_keeps_connection e s c conn Hc) as (after & Hafter & Hat).
    repeat split; [exact Hkey|exact Hend|]. exists c, after. split; congruence. }
  destruct (step_effect e s) as [(u & _ & Heq)|[(c & r & _ & Heq)|[(c & _ & Heq)|Heq]]];
    rewrite Heq in Hk.
  - unfold sseOpen, registrySet in Hk. simpl in Hk.
    apply lookup_insert_Some in Hk as [[<- <-]|[_ Hold]]; [|exact (Hlift Hold)].
    repeat split. rewrite Heq.
    destruct (sseOpen_connection u s) as (conn & Hc & _ & Ht & _). eauto.
  - apply Hlift. unfold sseSettle in Hk.
    destruct (connections s !! c) as [conn|]; [|exact Hk].
    destruct (handshake conn), r; exact Hk.
  - apply Hlift. unfold reqClose in Hk.
    destruct (connections s !! c) as [conn|]; [|exact Hk].
    destruct (closeListener conn); [|exact Hk].
    simpl in Hk. unfold registryDelete in Hk.
    apply lookup_delete_Some in Hk as [_ Hold]. exact Hold.
  - apply Hlift. exact Hk.
Qed.

(** X11: in every state the server reaches, each registry key is the session
    id of the transport stored under it, that transport posts to
    [/messages], and it is the transport of one of the connections opened
    so far. *)
Theorem registry_holds_session_ids (events : list Event) (k : jsstring)
    (t : SSEServerTransport) :
  transports (exec events initial) !! k = Some t →
  k = sessionId t ∧ endpoint t = str "/messages"
  ∧ ∃ c conn, connections (exec events initial) !! c = Some conn ∧ transport conn = t.
Proof.
  revert k t.
  apply (exec_invariant
           (fun s => ∀ k t, transports s !! k = Some t →
              k = sessionId t ∧ endpoint t = str "/messages"
              ∧ ∃ c conn, connections s !! c = Some conn ∧ transport conn = t)).
  - intros e s. apply registry_invariant_step.
  - intros k t Hk. simpl in Hk. rewrite lookup_empty in Hk. discriminate.
Qed.

(** X12: in every state the server reaches, a POST whose [sessionId] is
    missing or is not shaped like a session id (36 code units), and does not
    name a member of [Object.prototype], is answered 404 when the parsers
    accept its body and by the parser when one refuses it; either way it
    changes nothing. *)
Theorem malformed_session_id_is_404 (events : list Event) (sid : option jsstring)
    (parsing : BodyParsing) (handle : SSEServerTransport -> Value -> Settled ()) :
  length (propertyKey sid) ≠ 36%nat →
  propertyKey sid ∉ objectPrototypeKeys →
  postRequest sid parsing handle (exec events initial)
  = (match parsing with
     | Accepted _ =>
         {| statusCode := 404; responseBody := str "Session not found or inactive" |}
     | Refused response => response
     end,
     exec events initial).
Proof.
  intros Hlen Hproto. destruct parsing as [body|response]; [|reflexivity].
  apply post_unknown_404; [|exact Hproto].
  destruct (transports (exec events initial) !! propertyKey sid) as [t|] eqn:Hk;
    [|reflexivity].
  destruct (registry_holds_session_ids events _ t Hk) as (Hkey & _).
  exfalso. apply Hlen. rewrite Hkey. apply length_uuidString.
Qed.

(** The connection invariant of one state. *)
Lemma connection_invariant_step (e : Event) (s : ServerState) :
  (∀ c conn, connections s !! c = Some conn →
      mcpServer conn = connectionServer
      ∧ match handshake conn with
        | Pending => closeListener conn = false
        | Connected => closeListener conn = true
        | Failed => closeListener conn = false ∧ writableEnded conn = true
        end) →
  ∀ c conn, connections (snd (step e s)) !! c = Some conn →
      mcpServer conn = connectionServer
      ∧ match handshake conn with
        | Pending => closeListener conn = false
        | Connected => closeListener conn = true
        | Failed => closeListener conn = false ∧ writableEnded conn = true
        end.
Proof.
  intros Hinv c conn Hc.
  destruct (step_effect e s) as [(u & _ & Heq)|[(c' & r & _ & Heq)|[(c' & _ & Heq)|Heq]]];
    rewrite Heq in Hc.
  - unfold sseOpen in Hc. simpl in Hc.
    apply lookup_app_Some in Hc as [Hold|[_ Hnew]]; [exact (Hinv c conn Hold)|].
    destruct (c - length (connections s))%nat as [|n]; simpl in Hnew;
      [|rewrite lookup_nil in Hnew; discriminate].
    injection Hnew as <-. split; reflexivity.
  - apply sseSettle_lookup in Hc as (before & Hb & _ & Hserver & Hcases).
    destruct (Hinv c before Hb) as (Hs & Hl).
    destruct Hcases as [->|[Hpending [(_ & Hh & Hl' & Hw')|(_ & Hh & Hl' & Hw')]]]; auto.
    + rewrite Hserver, Hh. auto.
    + rewrite Hpending in Hl. rewrite Hserver, Hh, Hl', Hw'. auto.
  - apply (Hinv c conn). unfold reqClose in Hc.
    destruct (connections s !! c') as [conn'|]; [|exact Hc].
    destruct (closeListener conn'); exact Hc.
  - exact (Hinv c conn Hc).
Qed.

(** X13: in every state the server reaches, each connection has the
    processor with the one tool, its [close] listener is attached exactly
    when its handshake has succeeded, and the response of a connection whose
    handshake failed has been ended. *)
Theorem connections_follow_handshake (events : list Event) (c : nat) (conn : Connection) :
  connections (exec events initial) !! c = Some conn →
  mcpServer conn = connectionServer
  ∧ match handshake conn with
    | Pending => closeListener conn = false
    | Connected => closeListener conn = true
    | Failed => closeListener conn = false ∧ writableEnded conn = true
    end.
Proof.
  revert c conn.
  apply (exec_invariant
           (fun s => ∀ c conn, connections s !! c = Some conn →
              mcpServer conn = connectionServer
              ∧ match handshake conn with
                | Pending => closeListener conn = false
                | Connected => closeListener conn = true
                | Failed => closeListener conn = false ∧ writableEnded conn = true
                end)).
  - intros e s. apply connection_invariant_step.
  - intros c conn Hc. simpl in Hc. rewrite lookup_nil in Hc. discriminate.
Qed.

(** X14: the registry never holds more sessions than connections have been
    opened. *)
Theorem registry_bounded_by_connections (events : list Event) :
  (size (transports (exec events initial)) ≤ length (connections (exec events initial)))%nat.
Proof.
  apply (exec_invariant
           (fun s => (size (transports s) ≤ length (connections s))%nat)).
  - intros e s Hs.
    destruct (step_effect e s) as [(u & _ & ->)|[(c & r & _ & ->)|[(c & _ & ->)| ->]]].
    + unfold sseOpen, registrySet. cbn [transports connections].
      rewrite length_app, map_size_insert. cbn [length].
      destruct (transports s !! _); unfold id; lia.
    + unfold sseSettle. destruct (connections s !! c) as [conn|]; [|exact Hs].
      destruct (handshake conn), r; simpl; rewrite ?length_insert; exact Hs.
    + unfold reqClose. destruct (connections s !! c) as [conn|]; [|exact Hs].
      destruct (closeListener conn); [|exact Hs]. cbn [transports connections].
      unfold registryDelete. rewrite map_size_delete.
      destruct (transports s !! _); unfold id; lia.
    + exact Hs.
  - simpl. rewrite map_size_empty. lia.
Qed.

End ServerCoverage.

(** ** The test client *)

Section ClientCoverage.
Import Client.
Variable URL_parses : jsstring -> bool.
Variable SERVER_URL : option jsstring.
Variable client : Sdk.

Ltac run_script :=
  unfold runMinimalClient, attemptFinally, attempt, ask, readable, raise,
    mbind, mret, Script_bind, Script_ret; cbn beta iota zeta.

(** Every way the SDK's answers can turn out. *)
Ltac split_answers :=
  repeat match goal with
    | |- context [match ?x with _ => _ end] =>
        match type of x with
        | Settled _ => destruct x as [?|?] eqn:?
        | Value => destruct x eqn:?
        end; cbn beta iota zeta
    end.

(** X16: with a server address that parses, [runMinimalClient] never
    rejects, whatever the SDK does: it asks to connect first, then at most
    lists the tools and calls the tool, in that order, and always ends by
    asking to close, exactly once, also when [close] itself fails. *)
Theorem client_always_closes (log : list SdkCall) :
  URL_parses (sseUrl SERVER_URL) = true →
  ∃ calls,
    runMinimalClient URL_parses SERVER_URL client log
    = (Fulfilled (), log ++ Connect (sseUrl SERVER_URL) :: calls ++ [Close])
    ∧ (calls = [] ∨ calls = [ListTools]
       ∨ calls = [ListTools; CallTool toolName parameters]).
Proof.
  intros Hurl. run_script. rewrite Hurl. cbn [negb]. cbn beta iota zeta.
  split_answers;
    first [ exists []; split; [rewrite <- ?app_assoc; reflexivity|auto]
          | exists [ListTools]; split; [rewrite <- ?app_assoc; reflexivity|auto]
          | exists [ListTools; CallTool toolName parameters];
            split; [rewrite <- ?app_assoc; reflexivity|auto] ].
Qed.

(** X17: the client calls a tool only after [connect] and [listTools] have
    both succeeded, and the only tool it calls is [query_openstreetmap],
    with the query "Eiffel Tower, Paris". *)
Theorem client_calls_tool_after_listing (log : list SdkCall) (name : jsstring)
    (arguments : Value) :
  CallTool name arguments ∉ log →
  CallTool name arguments ∈ snd (runMinimalClient URL_parses SERVER_URL client log) →
  connect client (sseUrl SERVER_URL) = Fulfilled ()
  ∧ (∃ toolsList, listTools client = Fulfilled toolsList)
  ∧ name = str "query_openstreetmap"
  ∧ arguments = VObj [(str "query", VStr (str "Eiffel Tower, Paris"))].
Proof.
  intros Hfresh. run_script.
  destruct (URL_parses (sseUrl SERVER_URL)); cbn [negb]; cbn beta iota zeta;
    [|intros Hin; destruct (Hfresh Hin)].
  split_answers; cbn [snd]; intros Hin;
    repeat (apply elem_of_app in Hin as [Hin|Hin]);
    try (destruct (Hfresh Hin));
    repeat (apply elem_of_cons in Hin as [Heq|Hin]; [try discriminate Heq|]);
    try (apply elem_of_nil in Hin; destruct Hin);
    injection Heq as -> ->;
    repeat match goal with u : () |- _ => destruct u end; eauto.
Qed.

End ClientCoverage.

(** ** Decimal rendering of the status code *)

(** [digitsFuel] puts the decimal digits of [n] in front of [acc], given
    fuel for every bit of [n]. *)
Lemma digitsFuel_value (fuel : nat) :
  ∀ (n : N) (acc : jsstring),
    n < 2 ^ N.of_nat fuel →
    (0 < fuel)%nat →
    ∃ digits,
      digitsFuel fuel n acc = digits ++ acc
      ∧ fold_left (fun value c => 10 * value + (c - 0x30)) digits 0 = n
      ∧ Forall (fun c => 0x30 <= c <= 0x39) digits.
Proof.
  induction fuel as [|fuel IH]; intros n acc Hn Hfuel; [lia|].
  simpl digitsFuel.
  pose proof (N.mod_lt n 10 ltac:(lia)) as Hmod.
  pose proof (N.div_mod n 10 ltac:(lia)) as Hdiv.
  destruct (n / 10 =? 0) eqn:Hz.
  - apply N.eqb_eq in Hz. exists [0x30 + n mod 10]. split; [reflexivity|].
    split; [cbn [fold_left]; lia|]. constructor; [split; lia|constructor].
  - apply N.eqb_neq in Hz.
    assert (Hhalf : n / 10 < 2 ^ N.of_nat fuel).
    { rewrite Nat2N.inj_succ, N.pow_succ_r' in Hn.
      apply N.Div0.div_lt_upper_bound. lia. }
    assert (Hpos : (0 < fuel)%nat).
    { destruct fuel; [|lia]. cbn [N.of_nat] in Hhalf. rewrite N.pow_0_r in Hhalf. lia. }
    destruct (IH (n / 10) ((0x30 + n mod 10) :: acc) Hhalf Hpos)
      as (digits & Heq & Hvalue & Hdigits).
    exists (digits ++ [0x30 + n mod 10]). split; [|split].
    + rewrite Heq, <- app_assoc. reflexivity.
    + rewrite fold_left_app, Hvalue. cbn [fold_left]. clear - Hdiv Hmod.
      revert Hdiv Hmod. generalize (n / 10) (n mod 10). intros q r Hdiv Hmod. lia.
    + apply Forall_app. split; [exact Hdigits|].
      constructor; [|constructor]. clear - Hmod. revert Hmod.
      generalize (n mod 10). intros r Hmod. split; lia.
Qed.

(** [decimal n] is a non-empty string of decimal digits whose value is
    [n]. *)
Lemma decimal_value (n : N) :
  fold_left (fun value c => 10 * value + (c - 0x30)) (decimal n) 0 = n
  ∧ Forall (fun c => 0x30 <= c <= 0x39) (decimal n).
Proof.
  unfold decimal.
  destruct (digitsFuel_value (S (N.to_nat (N.log2 n))) n [])
    as (digits & Heq & Hvalue & Hdigits); [|lia|].
  - rewrite Nat2N.inj_succ, N2Nat.id.
    destruct n as [|p]; [reflexivity|]. apply N.log2_spec. lia.
  - rewrite Heq, app_nil_r. auto.
Qed.

(** ** Concrete runs of the further properties *)

Lemma envelope_shapes_witness :
  queryOpenStreetMap offline [0x20] [] 
  = (Fulfilled (VObj [(str "error", VStr (str "Query parameter cannot be empty."))]), [])
  ∧ ∃ props,
      VObj [(str "error", VStr (str "Query parameter cannot be empty."))] = VObj props
      ∧ map fst props = [str "error"].
Proof.
  split; [reflexivity|].
  destruct (envelope_shapes offline [0x20] [] [] _ eq_refl) as (props & Hv & Hshape).
  exists props. split; [exact Hv|].
  destruct Hshape as [[_ Hk]|[Hb _]]; [exact Hk|discriminate Hb].
Defined.

Lemma input_error_witness :
  fst (queryOpenStreetMap offline [] [])
  = Fulfilled (VObj [(str "error", VStr (str "Query parameter cannot be empty."))])
  ∧ blank [] = true.
Proof.
  split; [reflexivity|].
  exact (input_error_only_when_blank offline [] [] eq_refl).
Defined.

Lemma http_error_witness :
  let response :=
    {| status := 503; statusText := str "Service Unavailable";
       text := Fulfilled (str "try later");
       json := Rejected (ErrorObject (str "SyntaxError") (str "bad JSON")) |} in
  settles unavailable (str "Paris") (Fulfilled response)
  ∧ ok response = false
  ∧ text response = Fulfilled (str "try later")
  ∧ fst (queryOpenStreetMap unavailable (str "Paris") [])
    = Fulfilled
        (VObj [(str "query", VStr (str "Paris"));
               (str "found", VBool false);
               (str "error",
                VStr (str "Failed to query OpenStreetMap: Nominatim API request failed with status 503: Service Unavailable"))]).
Proof.
  intros response.
  assert (Hs : settles unavailable (str "Paris") (Fulfilled response)).
  { split; [reflexivity|]. exists (str "Paris"). split; reflexivity. }
  split; [exact Hs|]. split; [reflexivity|]. split; [reflexivity|].
  exact (http_error_envelope unavailable (str "Paris") response (str "try later") []
           Hs eq_refl eq_refl).
Defined.

Lemma non_error_rejection_witness :
  settles rejectingWithString (str "Paris") (Rejected (NonError (VStr (str "socket hang up"))))
  ∧ fst (queryOpenStreetMap rejectingWithString (str "Paris") [])
    = Fulfilled
        (VObj [(str "query", VStr (str "Paris"));
               (str "found", VBool false);
               (str "error",
                VStr (str "Failed to query OpenStreetMap: An unknown error occurred"))]).
Proof.
  assert (Hs : settles rejectingWithString (str "Paris")
                 (Rejected (NonError (VStr (str "socket hang up"))))).
  { split; [reflexivity|]. exists (str "Paris"). split; reflexivity. }
  split; [exact Hs|].
  exact (non_error_rejection_envelope rejectingWithString (str "Paris") _ [] Hs).
Defined.

Lemma falsy_body_witness :
  respondsWith (answering VNull) (str "Paris") VNull
  ∧ truthy VNull = false
  ∧ fst (queryOpenStreetMap (answering VNull) (str "Paris") [])
    = Fulfilled
        (VObj [(str "query", VStr (str "Paris"));
               (str "found", VBool false);
               (str "message",
                VStr (str "Could not find location information for " ++ dquote
                      ++ str "Paris" ++ dquote ++ str "."))]).
Proof.
  assert (Hr : respondsWith (answering VNull) (str "Paris") VNull)
    by (apply (answering_responds _ _ (str "Paris")); reflexivity).
  split; [exact Hr|]. split; [reflexivity|].
  exact (falsy_body_is_not_found (answering VNull) (str "Paris") VNull [] Hr eq_refl).
Defined.

Lemma null_first_element_witness :
  respondsWith (answering (VArr [VNull; eiffel])) (str "Paris") (VArr [VNull; eiffel])
  ∧ ∃ message,
      fst (queryOpenStreetMap (answering (VArr [VNull; eiffel])) (str "Paris") [])
      = Fulfilled
          (VObj [(str "query", VStr (str "Paris"));
                 (str "found", VBool false);
                 (str "error", VStr (str "Failed to query OpenStreetMap: " ++ message))]).
Proof.
  assert (Hr : respondsWith (answering (VArr [VNull; eiffel])) (str "Paris")
                 (VArr [VNull; eiffel]))
    by (apply (answering_responds _ _ (str "Paris")); reflexivity).
  split; [exact Hr|].
  exact (null_first_element_is_failure (answering (VArr [VNull; eiffel])) (str "Paris")
           [eiffel] [] Hr).
Defined.

Lemma request_url_witness :
  Forall (fun c => c < 0x10000) (str "a&b=c d")
  ∧ request (str "a%26b%3Dc%20d") ∈ snd (queryOpenStreetMap offline (str "a&b=c d") [])
  ∧ ∃ encodedQuery,
      url (request (str "a%26b%3Dc%20d"))
      = str "https://nominatim.openstreetmap.org/search?q=" ++ encodedQuery
        ++ str "&format=json&limit=1"
      ∧ Forall (fun c => c ∉ str "&=#?/+ ") encodedQuery.
Proof.
  assert (Hunits : Forall (fun c => c < 0x10000) (str "a&b=c d")).
  { unfold str. simpl. repeat (constructor; [reflexivity|]). constructor. }
  assert (Hin : request (str "a%26b%3Dc%20d")
                ∈ snd (queryOpenStreetMap offline (str "a&b=c d") [])).
  { change (request (str "a%26b%3Dc%20d") ∈ [request (str "a%26b%3Dc%20d")]).
    constructor. }
  split; [exact Hunits|]. split; [exact Hin|].
  destruct (request_url_is_safe offline (str "a&b=c d") _ Hunits Hin)
    as (enc & Hurl & _ & _ & Hsafe).
  exists enc. split; [exact Hurl|exact Hsafe].
Defined.

Lemma query_rejection_witness :
  queryOpenStreetMap offline [0xD83D] [] = (Rejected URIError, [])
  ∧ encodeURIComponent [0xD83D] = None.
Proof.
  split; [reflexivity|].
  exact (proj1 (proj2 (query_rejects_only_before_try offline [0xD83D] [] [] URIError
                         eq_refl))).
Defined.

Lemma session_persists_witness :
  let s := exec [GetSse 5; ConnectSettles 0 ConnectOk] initial in
  let events := [PostMessages (Some (uuidString 5)) VNull unhandled;
                 GetSse 6; ConnectSettles 1 ConnectOk; ReqClose 1; GetHealth] in
  is_Some (transports s !! uuidString 5)
  ∧ (∀ c conn, ReqClose c ∈ events →
               connections (exec events s) !! c = Some conn →
               sessionId (transport conn) ≠ uuidString 5)
  ∧ is_Some (transports (exec events s) !! uuidString 5).
Proof.
  intros s events.
  assert (Hreg : is_Some (transports s !! uuidString 5)) by (eexists; reflexivity).
  assert (Hother : ∀ c conn, ReqClose c ∈ events →
                     connections (exec events s) !! c = Some conn →
                     sessionId (transport conn) ≠ uuidString 5).
  { intros c conn Hin Hc. unfold events in Hin.
    repeat (apply elem_of_cons in Hin as [Heq|Hin]; [try discriminate Heq|]).
    - injection Heq as ->.
      assert (Ht : transport <$> (connections (exec events s) !! 1%nat)
                   = Some {| endpoint := str "/messages"; uuid := 6 |}) by reflexivity.
      rewrite Hc in Ht. injection Ht as ->.
      vm_compute. discriminate.
    - apply elem_of_nil in Hin. destruct Hin. }
  split; [exact Hreg|]. split; [exact Hother|].
  exact (session_persists_until_its_close events s (uuidString 5) Hreg Hother).
Defined.

Lemma registry_key_witness :
  let t := {| endpoint := str "/messages"; uuid := 5 |} in
  transports (exec [GetSse 5; GetSse 6; ReqClose 1] initial) !! uuidString 5 = Some t
  ∧ uuidString 5 = sessionId t ∧ endpoint t = str "/messages".
Proof.
  intros t.
  assert (Hk : transports (exec [GetSse 5; GetSse 6; ReqClose 1] initial) !! uuidString 5
               = Some t) by reflexivity.
  split; [exact Hk|].
  destruct (registry_holds_session_ids [GetSse 5; GetSse 6; ReqClose 1] _ t Hk)
    as (Hkey & Hend & _).
  split; [exact Hkey|exact Hend].
Defined.

Lemma malformed_session_id_witness :
  let s := exec [GetSse 5; ConnectSettles 0 ConnectOk] initial in
  let refusal := {| statusCode := 400; responseBody := str "Bad Request" |} in
  length (propertyKey None) ≠ 36%nat
  ∧ (propertyKey None ∉ objectPrototypeKeys)
  ∧ postRequest None (Accepted VNull) handled s
    = ({| statusCode := 404; responseBody := str "Session not found or inactive" |}, s)
  ∧ postRequest None (Refused refusal) handled s = (refusal, s).
Proof.
  intros s refusal.
  assert (Hlen : length (propertyKey None) ≠ 36%nat) by (simpl; lia).
  assert (Hproto : propertyKey None ∉ objectPrototypeKeys).
  { intros Hin. unfold objectPrototypeKeys in Hin. simpl map in Hin.
    repeat (apply elem_of_cons in Hin as [Heq|Hin]; [discriminate Heq|]).
    apply elem_of_nil in Hin. exact Hin. }
  split; [exact Hlen|]. split; [exact Hproto|]. split.
  - exact (malformed_session_id_is_404 [GetSse 5; ConnectSettles 0 ConnectOk] None
             (Accepted VNull) handled Hlen Hproto).
  - exact (malformed_session_id_is_404 [GetSse 5; ConnectSettles 0 ConnectOk] None
             (Refused refusal) handled Hlen Hproto).
Defined.

Lemma connections_witness :
  ∃ conn,
    connections (exec [GetSse 5; ConnectSettles 0 (ConnectThrows URIError false)] initial)
      !! 0%nat = Some conn
    ∧ mcpServer conn = connectionServer
    ∧ handshake conn = Failed
    ∧ closeListener conn = false ∧ writableEnded conn = true.
Proof.
  eexists. split; [reflexivity|].
  pose proof (connections_follow_handshake
                [GetSse 5; ConnectSettles 0 (ConnectThrows URIError false)] 0 _ eq_refl)
    as (Hserver & Hshape).
  split; [exact Hserver|]. split; [reflexivity|]. exact Hshape.
Defined.

Lemma client_closes_witness :
  httpOnly (Client.sseUrl None) = true
  ∧ ∃ calls,
      Client.runMinimalClient httpOnly None unreachableSdk []
      = (Fulfilled (),
         [] ++ Client.Connect (str "http://localhost:3000/sse") :: calls ++ [Client.Close]).
Proof.
  split; [reflexivity|].
  destruct (client_always_closes httpOnly None unreachableSdk [] eq_refl)
    as (calls & Hrun & _).
  exists calls. exact Hrun.
Defined.

Lemma client_tool_call_witness :
  (Client.CallTool Client.toolName Client.parameters ∉ [])
  ∧ Client.CallTool Client.toolName Client.parameters
    ∈ snd (Client.runMinimalClient httpOnly None obligingSdk [])
  ∧ Client.connect obligingSdk (Client.sseUrl None) = Fulfilled ()
  ∧ Client.toolName = str "query_openstreetmap".
Proof.
  assert (Hfresh : Client.CallTool Client.toolName Client.parameters ∉ [])
    by (intros Hin; apply elem_of_nil in Hin; exact Hin).
  assert (Hin : Client.CallTool Client.toolName Client.parameters
                ∈ snd (Client.runMinimalClient httpOnly None obligingSdk [])).
  { change (Client.CallTool Client.toolName Client.parameters
            ∈ [Client.Connect (Client.sseUrl None); Client.ListTools;
               Client.CallTool Client.toolName Client.parameters; Client.Close]).
    do 2 constructor. constructor. }
  split; [exact Hfresh|]. split; [exact Hin|].
  destruct (client_calls_tool_after_listing httpOnly None obligingSdk [] _ _ Hfresh Hin)
    as (Hconnect & _ & Hname & _).
  split; [exact Hconnect|exact Hname].
Defined.
